(** * parcial1compu2: hard-disk gas in a box and coupled Duffing oscillators

    A shallow embedding of the two C++ programs of the repository:

    - [Cajas] and [Esfera] (Esfera.hpp) with the simulation step of the
      gas program (main.cpp);
    - [OsciladorDuffing] and [IntegradorRK4] (duffing_POO).

    The C++ type [double] is kept abstract behind the interface [Arit]:
    every method is written once, operation by operation as in the
    source, and is then read in two arithmetics:

    - [Binary64]: IEEE 754 binary64 with round-to-nearest-even, the
      arithmetic the programs execute (Rocq's primitive floats), used to
      evaluate the code on concrete inputs and, through the
      specification of the primitive operations, to reason about every
      input;
    - [Reales]: exact real arithmetic, in which the integrator is
      compared with the classical Runge-Kutta scheme and two properties
      are stated that rest on changes of sign and tests against zero
      only; binary64 gives the same there.

    Properties that only depend on the control structure of the code are
    proved for every arithmetic. *)

From Stdlib Require Import Floats.PrimFloat.
From Stdlib Require Floats.SpecFloat Floats.FloatOps Floats.FloatAxioms.
From Stdlib Require Numbers.Cyclic.Int63.Uint63.
From Stdlib Require Import ZArith Reals Lra Lia List Bool.
Import ListNotations.

Set Implicit Arguments.

(** ** The arithmetic of [double] *)

Class Arit (D : Type) : Type := {
  dlit : Z -> D;            (* an integer literal converted to double *)
  dadd : D -> D -> D;
  dsub : D -> D -> D;
  dmul : D -> D -> D;
  ddiv : D -> D -> D;
  dopp : D -> D;
  dsqrt : D -> D;           (* std::sqrt *)
  dle : D -> D -> bool;     (* <= *)
  deq : D -> D -> bool;     (* == *)
  disfinite : D -> bool     (* std::isfinite *)
}.

Declare Scope dbl_scope.
Delimit Scope dbl_scope with dbl.
Notation "x + y" := (dadd x y) : dbl_scope.
Notation "x - y" := (dsub x y) : dbl_scope.
Notation "x * y" := (dmul x y) : dbl_scope.
Notation "x / y" := (ddiv x y) : dbl_scope.
Notation "- x" := (dopp x) : dbl_scope.
Notation "x <= y" := (dle x y) : dbl_scope.
Notation "x == y" := (deq x y) (at level 70, no associativity) : dbl_scope.
Notation "0" := (dlit 0%Z) : dbl_scope.
Notation "1" := (dlit 1%Z) : dbl_scope.
Notation "2" := (dlit 2%Z) : dbl_scope.
Notation "3" := (dlit 3%Z) : dbl_scope.
Notation "6" := (dlit 6%Z) : dbl_scope.

(** The functions of libm that feed arithmetic: [std::cos] and
    [std::pow] with an integer literal as exponent, both used by
    [OsciladorDuffing]. *)
Class Libm (D : Type) : Type := {
  dcos : D -> D;
  dpow : D -> Z -> D
}.

(** IEEE 754 binary64. Integer literals of the sources are far below
    2^53 and convert exactly. *)
Definition float_of_Z (z : Z) : PrimFloat.float :=
  match z with
  | Z0 => PrimFloat.zero
  | Zpos _ => PrimFloat.of_uint63 (Uint63.of_Z z)
  | Zneg q => PrimFloat.opp (PrimFloat.of_uint63 (Uint63.of_Z (Zpos q)))
  end.

#[export] Instance Binary64 : Arit PrimFloat.float := {|
  dlit := float_of_Z;
  dadd := PrimFloat.add;
  dsub := PrimFloat.sub;
  dmul := PrimFloat.mul;
  ddiv := PrimFloat.div;
  dopp := PrimFloat.opp;
  dsqrt := PrimFloat.sqrt;
  dle := PrimFloat.leb;
  deq := PrimFloat.eqb;
  disfinite := PrimFloat.is_finite
|}.

(** Exact real arithmetic: no rounding, and every value is finite. *)
Definition Rleb (a b : R) : bool := if Rle_dec a b then true else false.
Definition Reqb (a b : R) : bool := if Req_dec_T a b then true else false.

#[export] Instance Reales : Arit R := {|
  dlit := IZR;
  dadd := Rplus;
  dsub := Rminus;
  dmul := Rmult;
  ddiv := Rdiv;
  dopp := Ropp;
  dsqrt := sqrt;
  dle := Rleb;
  deq := Reqb;
  disfinite := fun _ => true
|}.

#[export] Instance LibmReales : Libm R := {|
  dcos := cos;
  dpow := powerRZ
|}.

(** ** class Cajas (Esfera.hpp) *)

Module Cajas.
Section Clase.
Context {D : Type} `{Arit D}.
Local Open Scope dbl_scope.

Record obj : Type := mk {
  xmin : D; xmax : D; ymin : D; ymax : D;
  p : D; n : D; pn : D
}.

Definition Getxmin (c : obj) : D := xmin c.
Definition Getxmax (c : obj) : D := xmax c.
(* double Getymin() const { return xmin; } *)
Definition Getymin (c : obj) : D := xmin c.
(* double Getymax() const { return xmax; } *)
Definition Getymax (c : obj) : D := xmax c.
Definition Getp (c : obj) : D := p c.

Definition inicio (x1 x2 y1 y2 : D) (c : obj) : obj :=
  {| xmin := x1; xmax := x2; ymin := y1; ymax := y2;
     p := p c; n := n c; pn := pn c |}.

Definition actualizarPresion (c : obj) : obj :=
  {| xmin := xmin c; xmax := xmax c; ymin := ymin c; ymax := ymax c;
     p := 0; n := 0; pn := 0 |}.

Definition calcularPresionN (mv2 : D) (c : obj) : obj :=
  {| xmin := xmin c; xmax := xmax c; ymin := ymin c; ymax := ymax c;
     p := p c; n := n c + 1; pn := pn c + mv2 / 3 |}.

Definition calcularPresion (c : obj) : obj :=
  {| xmin := xmin c; xmax := xmax c; ymin := ymin c; ymax := ymax c;
     p := pn c / n c; n := n c; pn := pn c |}.

End Clase.
Arguments obj D : clear implicits.
End Cajas.

(** ** class Esfera (Esfera.hpp) *)

Module Esfera.
Section Clase.
Context {D : Type} `{Arit D}.
Local Open Scope dbl_scope.

(** The cached heading. [theta] is private and no method reads it, so
    the result of [std::atan2(vy, vx)] is kept as the unevaluated call:
    the field records from which velocity it was last computed. *)
Inductive angulo : Type := atan2 (vy vx : D).

Record obj : Type := mk {
  m : D;
  x : D; y : D;
  vx : D; vy : D;
  theta : angulo;
  R : D
}.

Definition Getx (e : obj) : D := x e.
Definition Gety (e : obj) : D := y e.
Definition Getv (e : obj) : D := dsqrt (vx e * vx e + vy e * vy e).

Definition con_pos (x' y' : D) (e : obj) : obj :=
  {| m := m e; x := x'; y := y'; vx := vx e; vy := vy e;
     theta := theta e; R := R e |}.
Definition con_vx (v : D) (e : obj) : obj :=
  {| m := m e; x := x e; y := y e; vx := v; vy := vy e;
     theta := theta e; R := R e |}.
Definition con_vy (v : D) (e : obj) : obj :=
  {| m := m e; x := x e; y := y e; vx := vx e; vy := v;
     theta := theta e; R := R e |}.

Definition actualizarAngulo (e : obj) : obj :=
  {| m := m e; x := x e; y := y e; vx := vx e; vy := vy e;
     theta := atan2 (vy e) (vx e); R := R e |}.

Definition inicio (m0 x0 y0 vx0 vy0 R0 : D) (e : obj) : obj :=
  actualizarAngulo
    {| m := m0; x := x0; y := y0; vx := vx0; vy := vy0;
       theta := theta e; R := R0 |}.

Definition muevase (t : D) (e : obj) : obj :=
  let x' := x e + vx e * t in
  let y' := y e + vy e * t in
  con_pos x' y' e.

(** [rebotePared] mutates the sphere and, through the reference, the
    box: both are returned. *)
Definition rebotePared (e : obj) (caja : Cajas.obj D) : obj * Cajas.obj D :=
  let '(e1, caja1) :=
    if ((x e - Cajas.Getxmin caja) <= R e)
       || ((Cajas.Getxmax caja - x e) <= R e)
    then
      let e' := actualizarAngulo (con_vx (- vx e) e) in
      (e', Cajas.calcularPresionN (m e' * (vx e' * vx e' + vy e' * vy e')) caja)
    else (e, caja) in
  if ((y e1 - Cajas.Getymin caja1) <= R e1)
     || ((Cajas.Getymax caja1 - y e1) <= R e1)
  then
    let e' := actualizarAngulo (con_vy (- vy e1) e1) in
    (e', Cajas.calcularPresionN (m e' * (vx e' * vx e' + vy e' * vy e')) caja1)
  else (e1, caja1).

(** [e.colision(otra)] mutates both spheres: the pair is ([e], [otra])
    after the call. *)
Definition colision (e otra : obj) : obj * obj :=
  let dx := x otra - x e in
  let dy := y otra - y e in
  let dist2 := dx * dx + dy * dy in
  let Rsum := R e + R otra in
  if dist2 <= Rsum * Rsum then
    let dist := dsqrt dist2 in
    if dist == 0 then (e, otra)
    else
      let nx := dx / dist in
      let ny := dy / dist in
      let vn1 := vx e * nx + vy e * ny in
      let vn2 := vx otra * nx + vy otra * ny in
      let vn1_new := vn2 in
      let vn2_new := vn1 in
      let e' := con_vy (vy e + (vn1_new - vn1) * ny)
                  (con_vx (vx e + (vn1_new - vn1) * nx) e) in
      let otra' := con_vy (vy otra + (vn2_new - vn2) * ny)
                     (con_vx (vx otra + (vn2_new - vn2) * nx) otra) in
      (actualizarAngulo e', actualizarAngulo otra')
  else (e, otra).

End Clase.
Arguments obj D : clear implicits.
Arguments angulo D : clear implicits.
End Esfera.

(** ** The simulation step (main.cpp, "Bucle de simulación") *)

Module Simulacion.
Section Paso.
Context {D : Type} `{Arit D}.

(** [esferas[i] = v] on the vector of spheres. The loops below only
    use indices below the size of the vector. *)
Fixpoint poner {A : Type} (i : nat) (v : A) (l : list A) : list A :=
  match l, i with
  | [], _ => []
  | _ :: l', O => v :: l'
  | a :: l', S i' => a :: poner i' v l'
  end.

(** [esferas[i].colision(esferas[j])] *)
Definition colision_ij (i j : nat) (esferas : list (Esfera.obj D))
  : list (Esfera.obj D) :=
  match nth_error esferas i, nth_error esferas j with
  | Some a, Some b =>
      let '(a', b') := Esfera.colision a b in
      poner j b' (poner i a' esferas)
  | _, _ => esferas
  end.

(** [for (int j = i + 1; j < n; j++) esferas[i].colision(esferas[j]);] *)
Definition colisiones_de (i : nat) (esferas : list (Esfera.obj D))
  : list (Esfera.obj D) :=
  fold_left (fun es j => colision_ij i j es)
            (seq (S i) (length esferas - S i)) esferas.

(** The collision part of the loop alone: every pair [i < j] once,
    positions untouched. *)
Definition pase_colisiones (esferas : list (Esfera.obj D))
  : list (Esfera.obj D) :=
  fold_left (fun es i => colisiones_de i es)
            (seq 0 (length esferas)) esferas.

(** The body of the loop over [i]: collisions of [i] with every later
    sphere, then [rebotePared], then [muevase]. *)
Definition cuerpo (dt : D) (i : nat)
  (st : Cajas.obj D * list (Esfera.obj D)) : Cajas.obj D * list (Esfera.obj D) :=
  let '(caja, esferas) := st in
  let esferas1 := colisiones_de i esferas in
  match nth_error esferas1 i with
  | Some e =>
      let '(e', caja') := Esfera.rebotePared e caja in
      (caja', poner i (Esfera.muevase dt e') esferas1)
  | None => (caja, esferas1)
  end.

(** One iteration of the simulation loop, from [caja.actualizarPresion()]
    to [caja.calcularPresion()]. [main] fixes [dt = 0.01]. *)
Definition paso (dt : D) (st : Cajas.obj D * list (Esfera.obj D))
  : Cajas.obj D * list (Esfera.obj D) :=
  let '(caja, esferas) := st in
  let '(caja', esferas') :=
    fold_left (fun st i => cuerpo dt i st)
              (seq 0 (length esferas))
              (Cajas.actualizarPresion caja, esferas) in
  (Cajas.calcularPresion caja', esferas').

End Paso.
End Simulacion.

(** ** Undefined behaviour

    Reading a [std::vector] past its size is undefined: such a read is
    [None], and it propagates. *)
Notation "x <- c ;; k" :=
  (match c with Some x => k | None => None end)
  (at level 61, c at next level, right associativity).

(** ** class OsciladorDuffing (OsciladorDuffing.h) *)

Module OsciladorDuffing.
Section Clase.
Context {D : Type} `{Arit D} `{Libm D}.
Local Open Scope dbl_scope.

Record obj : Type := mk {
  alfa : D; beta : D; gamma : D; omega : D; k : D;
  m : list D; delta : list D;
  t : list D;
  x1 : list D; x2 : list D;
  y1 : list D; y2 : list D
}.

(** [for (double ti = t0; ti <= tf; ti += dt) t.push_back(ti);]
    The loop need not end (a step [dt] that is not positive), hence the
    bound on the number of tests. *)
Fixpoint llenar_t (tests : nat) (ti tf dt : D) (t : list D) : option (list D) :=
  match tests with
  | O => None
  | S tests' =>
      if ti <= tf then llenar_t tests' (ti + dt) tf dt (t ++ [ti])
      else Some t
  end.

Definition inicializar (tests : nat) (t0 tf dt x1_0 x2_0 y1_0 y2_0 : D)
  (o : obj) : option obj :=
  t' <- llenar_t tests t0 tf dt (t o) ;;
  Some {| alfa := alfa o; beta := beta o; gamma := gamma o;
          omega := omega o; k := k o; m := m o; delta := delta o;
          t := t';
          x1 := [x1_0]; x2 := [x2_0]; y1 := [y1_0]; y2 := [y2_0] |}.

Definition f1 (o : obj) (t_ x1_ x2_ y1_ y2_ : D) : option D :=
  delta0 <- nth_error (delta o) 0 ;;
  m0 <- nth_error (m o) 0 ;;
  Some (- (y1_ * delta0 + m0 * alfa o * x1_ + beta o * dpow x1_ 3 +
           k o * (x1_ - x2_) + gamma o * dcos (omega o * t_)) / m0).

Definition f2 (o : obj) (t_ x1_ x2_ y1_ y2_ : D) : option D :=
  delta1 <- nth_error (delta o) 1 ;;
  m1 <- nth_error (m o) 1 ;;
  Some (- (y2_ * delta1 + m1 * alfa o * x2_ + beta o * dpow x2_ 3 +
           k o * (x2_ - x1_)) / m1).

Definition getTiempo (o : obj) : list D := t o.
Definition getX1 (o : obj) : list D := x1 o.
Definition getX2 (o : obj) : list D := x2 o.
Definition getY1 (o : obj) : list D := y1 o.
Definition getY2 (o : obj) : list D := y2 o.

End Clase.
Arguments obj D : clear implicits.
End OsciladorDuffing.

(** ** class IntegradorRK4 (IntegradorRK4.h) *)

Module IntegradorRK4.
Section Clase.
Context {D : Type} `{Arit D} `{Libm D}.
Local Open Scope dbl_scope.
Import OsciladorDuffing.

(** The four values pushed by one iteration. *)
Record estado : Type := mk_estado {
  e_x1 : D; e_x2 : D; e_y1 : D; e_y2 : D
}.

(** The body of the loop up to the four [push_back]: the state computed
    at iteration [i]. *)
Definition nuevo (osc : obj D) (i : nat) : option estado :=
  t_i <- nth_error (t osc) i ;;
  t_i1 <- nth_error (t osc) (i + 1) ;;
  x1_i <- nth_error (x1 osc) i ;;
  x2_i <- nth_error (x2 osc) i ;;
  y1_i <- nth_error (y1 osc) i ;;
  y2_i <- nth_error (y2 osc) i ;;
  let h := t_i1 - t_i in
  (* k's *)
  let k1_0 := h * y1_i in
  let k2_0 := h * y2_i in
  let k1_1 := h * (y1_i + k1_0 / 2) in
  let k2_1 := h * (y2_i + k2_0 / 2) in
  let k1_2 := h * (y1_i + k1_1 / 2) in
  let k2_2 := h * (y2_i + k2_1 / 2) in
  let k1_3 := h * (y1_i + k1_2) in
  let k2_3 := h * (y2_i + k2_2) in
  (* l's *)
  a <- f1 osc t_i x1_i x2_i y1_i y2_i ;;
  let l1_0 := h * a in
  a <- f2 osc t_i x1_i x2_i y1_i y2_i ;;
  let l2_0 := h * a in
  a <- f1 osc (t_i + h / 2) (x1_i + k1_0 / 2) (x2_i + k2_0 / 2)
               (y1_i + l1_0 / 2) (y2_i + l2_0 / 2) ;;
  let l1_1 := h * a in
  a <- f2 osc (t_i + h / 2) (x1_i + k1_0 / 2) (x2_i + k2_0 / 2)
               (y1_i + l1_0 / 2) (y2_i + l2_0 / 2) ;;
  let l2_1 := h * a in
  a <- f1 osc (t_i + h / 2) (x1_i + k1_1 / 2) (x2_i + k2_1 / 2)
               (y1_i + l1_1 / 2) (y2_i + l2_1 / 2) ;;
  let l1_2 := h * a in
  a <- f2 osc (t_i + h / 2) (x1_i + k1_1 / 2) (x2_i + k2_1 / 2)
               (y1_i + l1_1 / 2) (y2_i + l2_1 / 2) ;;
  let l2_2 := h * a in
  a <- f1 osc (t_i + h) (x1_i + k1_2) (x2_i + k2_2)
               (y1_i + l1_2) (y2_i + l2_2) ;;
  let l1_3 := h * a in
  a <- f2 osc (t_i + h) (x1_i + k1_2) (x2_i + k2_2)
               (y1_i + l1_2) (y2_i + l2_2) ;;
  let l2_3 := h * a in
  (* Actualización *)
  Some {| e_x1 := x1_i + (k1_0 + 2 * k1_1 + 2 * k1_2 + k1_3) / 6;
          e_x2 := x2_i + (k2_0 + 2 * k2_1 + 2 * k2_2 + k2_3) / 6;
          e_y1 := y1_i + (l1_0 + 2 * l1_1 + 2 * l1_2 + l1_3) / 6;
          e_y2 := y2_i + (l2_0 + 2 * l2_1 + 2 * l2_2 + l2_3) / 6 |}.

(** The four [push_back]. *)
Definition agregar (s : estado) (osc : obj D) : obj D :=
  {| alfa := alfa osc; beta := beta osc; gamma := gamma osc;
     omega := omega osc; k := k osc; m := m osc; delta := delta osc;
     t := t osc;
     x1 := x1 osc ++ [e_x1 s]; x2 := x2 osc ++ [e_x2 s];
     y1 := y1 osc ++ [e_y1 s]; y2 := y2 osc ++ [e_y2 s] |}.

(** The test of "Comprobación numérica" on the values just pushed. *)
Definition no_finito (s : estado) : bool :=
  negb (disfinite (e_x1 s)) || negb (disfinite (e_y1 s)) ||
  negb (disfinite (e_x2 s)) || negb (disfinite (e_y2 s)).

(** [std::cerr << "NaN detectado en paso i=" << i] *)
Inductive evento : Type := NaN_detectado (i : nat).

(** [for (size_t i = 0; i + 1 < t.size(); i++)]: the loop never changes
    [t], so at index [i] exactly [t.size() - 1 - i] iterations remain
    unless a [break] ends it. *)
Fixpoint bucle (restantes : nat) (i : nat) (osc : obj D)
  : option (obj D * list evento) :=
  match restantes with
  | O => Some (osc, [])
  | S restantes' =>
      s <- nuevo osc i ;;
      let osc' := agregar s osc in
      if no_finito s then Some (osc', [NaN_detectado i])
      else bucle restantes' (S i) osc'
  end.

Definition integrar (osc : obj D) : option (obj D * list evento) :=
  bucle (length (t osc) - 1) 0 osc.

End Clase.
Arguments estado D : clear implicits.
End IntegradorRK4.

(** * Vocabulary of the properties *)

(** ** Quantities of a collision

    The intermediate values of [Esfera::colision], named so that
    properties can speak about them. *)

Section Contacto.
Context {D : Type} `{Arit D}.
Local Open Scope dbl_scope.

Definition dist2 (e otra : Esfera.obj D) : D :=
  (Esfera.x otra - Esfera.x e) * (Esfera.x otra - Esfera.x e) +
  (Esfera.y otra - Esfera.y e) * (Esfera.y otra - Esfera.y e).

Definition distancia (e otra : Esfera.obj D) : D := dsqrt (dist2 e otra).

(** The two tests passed by a pair that [colision] resolves. *)
Definition en_contacto (e otra : Esfera.obj D) : bool :=
  (dist2 e otra <= (Esfera.R e + Esfera.R otra) * (Esfera.R e + Esfera.R otra))
  && negb (distancia e otra == 0).

(** The unit normal from [e] to [otra]. *)
Definition normal_x (e otra : Esfera.obj D) : D :=
  (Esfera.x otra - Esfera.x e) / distancia e otra.
Definition normal_y (e otra : Esfera.obj D) : D :=
  (Esfera.y otra - Esfera.y e) / distancia e otra.

(** Components of the velocity of [s] along the normal of the pair and
    across it. *)
Definition v_normal (e otra s : Esfera.obj D) : D :=
  Esfera.vx s * normal_x e otra + Esfera.vy s * normal_y e otra.
Definition v_tangencial (e otra s : Esfera.obj D) : D :=
  Esfera.vy s * normal_x e otra - Esfera.vx s * normal_y e otra.

(** Kinetic energy, [0.5 * m * Getv() * Getv()] as [main] adds it up;
    the literal 0.5 is one half in both arithmetics. *)
Definition energia (s : Esfera.obj D) : D :=
  1 / 2 * Esfera.m s * Esfera.Getv s * Esfera.Getv s.

End Contacto.


(** No pair of spheres [i < j] of the vector passes the two tests of
    [colision]. *)
Definition sin_contactos {D : Type} `{Arit D} (esferas : list (Esfera.obj D))
  : Prop :=
  forall i j a b,
    i < j ->
    nth_error esferas i = Some a -> nth_error esferas j = Some b ->
    en_contacto a b = false.


(** ** The classical Runge-Kutta scheme

    The four-stage scheme for [u' = F(t, u)] with
    [u = (x1, x2, y1, y2)] and [F(t, u) = (y1, y2, f1(t, u), f2(t, u))]:
    [K1 = h F(t, u)], [K2 = h F(t + h/2, u + K1/2)],
    [K3 = h F(t + h/2, u + K2/2)], [K4 = h F(t + h, u + K3)] and
    [u + (K1 + 2 K2 + 2 K3 + K4) / 6]. It follows the textbook
    scheme, not the source: it is what [IntegradorRK4.nuevo] is compared
    with. *)

Section RungeKuttaClasico.
Context {D : Type} `{Arit D} `{Libm D}.
Local Open Scope dbl_scope.
Import OsciladorDuffing IntegradorRK4.

Definition campo (osc : obj D) (t_ : D) (u : estado D) : option (estado D) :=
  a1 <- f1 osc t_ (e_x1 u) (e_x2 u) (e_y1 u) (e_y2 u) ;;
  a2 <- f2 osc t_ (e_x1 u) (e_x2 u) (e_y1 u) (e_y2 u) ;;
  Some {| e_x1 := e_y1 u; e_x2 := e_y2 u; e_y1 := a1; e_y2 := a2 |}.

Definition por (c : D) (u : estado D) : estado D :=
  {| e_x1 := c * e_x1 u; e_x2 := c * e_x2 u;
     e_y1 := c * e_y1 u; e_y2 := c * e_y2 u |}.

Definition mas (u v : estado D) : estado D :=
  {| e_x1 := e_x1 u + e_x1 v; e_x2 := e_x2 u + e_x2 v;
     e_y1 := e_y1 u + e_y1 v; e_y2 := e_y2 u + e_y2 v |}.

Definition entre (u : estado D) (c : D) : estado D :=
  {| e_x1 := e_x1 u / c; e_x2 := e_x2 u / c;
     e_y1 := e_y1 u / c; e_y2 := e_y2 u / c |}.

Definition rk4_clasico (osc : obj D) (i : nat) : option (estado D) :=
  t_i <- nth_error (t osc) i ;;
  t_i1 <- nth_error (t osc) (i + 1) ;;
  x1_i <- nth_error (x1 osc) i ;;
  x2_i <- nth_error (x2 osc) i ;;
  y1_i <- nth_error (y1 osc) i ;;
  y2_i <- nth_error (y2 osc) i ;;
  let h := t_i1 - t_i in
  let u := {| e_x1 := x1_i; e_x2 := x2_i; e_y1 := y1_i; e_y2 := y2_i |} in
  F1 <- campo osc t_i u ;;
  let K1 := por h F1 in
  F2 <- campo osc (t_i + h / 2) (mas u (entre K1 2)) ;;
  let K2 := por h F2 in
  F3 <- campo osc (t_i + h / 2) (mas u (entre K2 2)) ;;
  let K3 := por h F3 in
  F4 <- campo osc (t_i + h) (mas u K3) ;;
  let K4 := por h F4 in
  Some (mas u (entre (mas (mas (mas K1 (por 2 K2)) (por 2 K3)) K4) 6)).

End RungeKuttaClasico.

(** ** Wall impacts *)

Section Impactos.
Context {D : Type} `{Arit D}.
Local Open Scope dbl_scope.

(** The box after a sequence of reported wall impacts, in order. *)
Definition impactos (l : list D) (c : Cajas.obj D) : Cajas.obj D :=
  fold_left (fun c mv2 => Cajas.calcularPresionN mv2 c) l c.

(** The sum of the contributions [mv2 / 3], added in the order of the
    calls, and the number of calls as the [double] that counts them. *)
Definition suma_tercios (l : list D) : D :=
  fold_left (fun s mv2 => s + mv2 / 3) l 0.

Fixpoint contar (k : nat) : D :=
  match k with
  | O => 0
  | S k' => contar k' + 1
  end.

End Impactos.

(** ** Inputs in exact arithmetic *)

Section EntradasExactas.
Local Open Scope R_scope.

(** A sphere of mass 1 and radius 0.1 at (4.95, 0) with velocity
    (1, 0). *)
Definition esfera_escenario : Esfera.obj R :=
  {| Esfera.m := 1; Esfera.x := 4.95; Esfera.y := 0; Esfera.vx := 1;
     Esfera.vy := 0; Esfera.theta := Esfera.atan2 0 1; Esfera.R := 0.1 |}.

(** Two unit spheres in contact along the x axis, the first moving
    towards the second, which is at rest. *)
Definition esfera_izquierda : Esfera.obj R :=
  {| Esfera.m := 1; Esfera.x := 0; Esfera.y := 0; Esfera.vx := 1;
     Esfera.vy := 0; Esfera.theta := Esfera.atan2 0 1; Esfera.R := 1 |}.

Definition esfera_derecha : Esfera.obj R :=
  {| Esfera.m := 1; Esfera.x := 1; Esfera.y := 0; Esfera.vx := 0;
     Esfera.vy := 0; Esfera.theta := Esfera.atan2 0 0; Esfera.R := 1 |}.

(** [OsciladorDuffing(0, 0, 0, 0, 0, {1, 1}, {0, 0})]: a free particle,
    with no restoring force, damping, drive or coupling. *)
Definition oscilador_construido : OsciladorDuffing.obj R :=
  {| OsciladorDuffing.alfa := 0; OsciladorDuffing.beta := 0;
     OsciladorDuffing.gamma := 0; OsciladorDuffing.omega := 0;
     OsciladorDuffing.k := 0;
     OsciladorDuffing.m := [1; 1]; OsciladorDuffing.delta := [0; 0];
     OsciladorDuffing.t := [];
     OsciladorDuffing.x1 := []; OsciladorDuffing.x2 := [];
     OsciladorDuffing.y1 := []; OsciladorDuffing.y2 := [] |}.

(** The same object after [inicializar(0, 1, 1, 0, 0, 1, 0)]: one step
    of length 1 from [x1 = 0] with velocity [y1 = 1]. *)
Definition oscilador_libre : OsciladorDuffing.obj R :=
  {| OsciladorDuffing.alfa := 0; OsciladorDuffing.beta := 0;
     OsciladorDuffing.gamma := 0; OsciladorDuffing.omega := 0;
     OsciladorDuffing.k := 0;
     OsciladorDuffing.m := [1; 1]; OsciladorDuffing.delta := [0; 0];
     OsciladorDuffing.t := [0; 1];
     OsciladorDuffing.x1 := [0]; OsciladorDuffing.x2 := [0];
     OsciladorDuffing.y1 := [1]; OsciladorDuffing.y2 := [0] |}.

End EntradasExactas.

(** ** Inputs in binary64 *)

Section EntradasBinary64.
Local Open Scope float_scope.

(** A box wider than tall with a pressure of 1 already computed. *)
Definition caja_con_presion : Cajas.obj float :=
  {| Cajas.xmin := -8; Cajas.xmax := 8; Cajas.ymin := -1; Cajas.ymax := 1;
     Cajas.p := 1; Cajas.n := 4; Cajas.pn := 4 |}.

(** The same box before any pressure is computed, and a sphere of
    radius 0.5 at rest in [x], rising towards the top wall [ymax = 1],
    a quarter away from it. *)
Definition caja_ancha : Cajas.obj float :=
  {| Cajas.xmin := -8; Cajas.xmax := 8; Cajas.ymin := -1; Cajas.ymax := 1;
     Cajas.p := 0; Cajas.n := 0; Cajas.pn := 0 |}.

Definition bola_arriba : Esfera.obj float :=
  {| Esfera.m := 1; Esfera.x := 0; Esfera.y := 0.75; Esfera.vx := 0;
     Esfera.vy := 1; Esfera.theta := Esfera.atan2 1 0; Esfera.R := 0.5 |}.

(** Two unit spheres overlapping along the x axis; the first moves
    towards the second, which is at rest. *)
Definition bola_a : Esfera.obj float :=
  {| Esfera.m := 1; Esfera.x := 0; Esfera.y := 0; Esfera.vx := 1;
     Esfera.vy := 0; Esfera.theta := Esfera.atan2 0 1; Esfera.R := 1 |}.

Definition bola_b : Esfera.obj float :=
  {| Esfera.m := 1; Esfera.x := 1; Esfera.y := 0; Esfera.vx := 0;
     Esfera.vy := 0; Esfera.theta := Esfera.atan2 0 0; Esfera.R := 1 |}.

(** A unit sphere far from [bola_a]. *)
Definition bola_lejana : Esfera.obj float :=
  {| Esfera.m := 1; Esfera.x := 4; Esfera.y := 0; Esfera.vx := 0;
     Esfera.vy := 0; Esfera.theta := Esfera.atan2 0 0; Esfera.R := 1 |}.

(** The scenario of one sphere next to the right wall, with 4.95 and
    0.1 rounded to binary64. *)
Definition caja_cuadrada : Cajas.obj float :=
  {| Cajas.xmin := -5; Cajas.xmax := 5; Cajas.ymin := -5; Cajas.ymax := 5;
     Cajas.p := 0; Cajas.n := 0; Cajas.pn := 0 |}.

Definition bola_derecha : Esfera.obj float :=
  {| Esfera.m := 1; Esfera.x := 0x1.3cccccccccccdp+2; Esfera.y := 0;
     Esfera.vx := 1; Esfera.vy := 0; Esfera.theta := Esfera.atan2 0 1;
     Esfera.R := 0x1.999999999999ap-4 |}.

(** A free particle launched at the speed 2^1023 on a grid of three
    steps of length 1. *)
Definition oscilador_veloz : OsciladorDuffing.obj float :=
  {| OsciladorDuffing.alfa := 0; OsciladorDuffing.beta := 0;
     OsciladorDuffing.gamma := 0; OsciladorDuffing.omega := 0;
     OsciladorDuffing.k := 0;
     OsciladorDuffing.m := [1; 1]; OsciladorDuffing.delta := [0; 0];
     OsciladorDuffing.t := [0; 1; 2; 3];
     OsciladorDuffing.x1 := [0]; OsciladorDuffing.x2 := [0];
     OsciladorDuffing.y1 := [0x1p+1023]; OsciladorDuffing.y2 := [0] |}.











(** A box of extents 0..10 and a sphere of radius 0.1 at (0.06, 5),
    within reach of the left wall and moving towards it; 0.06, 0.1 and
    the step 0.01 of [main] rounded to binary64. *)
Definition caja_0_10 : Cajas.obj float :=
  {| Cajas.xmin := 0; Cajas.xmax := 10; Cajas.ymin := 0; Cajas.ymax := 10;
     Cajas.p := 0; Cajas.n := 0; Cajas.pn := 0 |}.

Definition bola_izquierda : Esfera.obj float :=
  {| Esfera.m := 1; Esfera.x := 0x1.eb851eb851eb8p-5; Esfera.y := 5;
     Esfera.vx := -1; Esfera.vy := 0; Esfera.theta := Esfera.atan2 0 (-1);
     Esfera.R := 0x1.999999999999ap-4 |}.

Definition dt_main : float := 0x1.47ae147ae147bp-7.

(** Rocq's floats have neither [cos] nor [pow]. The binary64 runs
    below are on oscillators with [omega = 0] and [gamma = 0] or
    [beta = 0]: the only cosine taken is [cos(0) = 1], and [pow(x, 3)]
    is taken where the product [x * x * x] is exact or, as [pow],
    overflows to infinity. Everywhere else the value is left unknown
    (NaN). *)
Definition libm_evaluacion : Libm float :=
  {| dcos := fun x => if PrimFloat.eqb x 0 then 1 else nan;
     dpow := fun x n => match n with 3%Z => x * x * x | _ => nan end |}.

(** Two oscillators about to take a step of length 0.5 from the same
    first position and velocity: a free pair, and a pair with a
    restoring force, damping, coupling and other masses, whose second
    oscillator starts elsewhere. *)
Definition oscilador_sin_fuerza : OsciladorDuffing.obj float :=
  {| OsciladorDuffing.alfa := 0; OsciladorDuffing.beta := 0;
     OsciladorDuffing.gamma := 0; OsciladorDuffing.omega := 0;
     OsciladorDuffing.k := 0;
     OsciladorDuffing.m := [1; 1]; OsciladorDuffing.delta := [0; 0];
     OsciladorDuffing.t := [0; 0.5];
     OsciladorDuffing.x1 := [1]; OsciladorDuffing.x2 := [2];
     OsciladorDuffing.y1 := [3]; OsciladorDuffing.y2 := [4] |}.

Definition oscilador_con_fuerza : OsciladorDuffing.obj float :=
  {| OsciladorDuffing.alfa := -1; OsciladorDuffing.beta := 0;
     OsciladorDuffing.gamma := 1.5; OsciladorDuffing.omega := 0;
     OsciladorDuffing.k := 2;
     OsciladorDuffing.m := [2; 4]; OsciladorDuffing.delta := [0.5; 0.25];
     OsciladorDuffing.t := [0; 0.5];
     OsciladorDuffing.x1 := [1]; OsciladorDuffing.x2 := [7];
     OsciladorDuffing.y1 := [3]; OsciladorDuffing.y2 := [9] |}.

(** [OsciladorDuffing(0, 0, 0, 0, 0, {1, 1}, {0, 0})] as built. *)
Definition oscilador_nuevo : OsciladorDuffing.obj float :=
  {| OsciladorDuffing.alfa := 0; OsciladorDuffing.beta := 0;
     OsciladorDuffing.gamma := 0; OsciladorDuffing.omega := 0;
     OsciladorDuffing.k := 0;
     OsciladorDuffing.m := [1; 1]; OsciladorDuffing.delta := [0; 0];
     OsciladorDuffing.t := [];
     OsciladorDuffing.x1 := []; OsciladorDuffing.x2 := [];
     OsciladorDuffing.y1 := []; OsciladorDuffing.y2 := [] |}.

End EntradasBinary64.

(** * Properties *)

(** ** Cajas: the pressure accumulators, in every arithmetic *)

Section PresionAcumulada.
Context {D : Type} `{Arit D}.
Local Open Scope dbl_scope.

(** [calcularPresion] divides without looking at the count. *)
Lemma calcularPresion_unguarded (c : Cajas.obj D) :
  Cajas.Getp (Cajas.calcularPresion c) = Cajas.pn c / Cajas.n c.
Proof. reflexivity. Qed.

Lemma impactos_pn (l : list D) (c : Cajas.obj D) :
  Cajas.pn (impactos l c) = fold_left (fun s mv2 => s + mv2 / 3) l (Cajas.pn c).
Proof.
  revert c; induction l as [|mv2 l IH]; intro c; simpl.
  - reflexivity.
  - rewrite IH. reflexivity.
Qed.

Lemma impactos_n (l : list D) (c : Cajas.obj D) :
  Cajas.n (impactos l c) = fold_left (fun s _ => s + 1) l (Cajas.n c).
Proof.
  revert c; induction l as [|mv2 l IH]; intro c; simpl.
  - reflexivity.
  - rewrite IH. reflexivity.
Qed.

Lemma contar_fold (A : Type) (l : list A) (k : nat) :
  fold_left (fun (s : D) (_ : A) => s + 1) l (contar k) = contar (k + length l).
Proof.
  revert k; induction l as [|a l IH]; intro k; simpl.
  - now rewrite Nat.add_0_r.
  - change (contar k + 1) with (contar (S k)). rewrite IH.
    f_equal. lia.
Qed.

(** Impacts touch neither the pressure nor the extents. *)
Lemma impactos_frame (l : list D) (c : Cajas.obj D) :
  Cajas.p (impactos l c) = Cajas.p c /\
  Cajas.xmin (impactos l c) = Cajas.xmin c /\
  Cajas.xmax (impactos l c) = Cajas.xmax c /\
  Cajas.ymin (impactos l c) = Cajas.ymin c /\
  Cajas.ymax (impactos l c) = Cajas.ymax c.
Proof.
  revert c; induction l as [|mv2 l IH]; intro c; simpl.
  - repeat split.
  - destruct (IH (Cajas.calcularPresionN mv2 c)) as (-> & -> & -> & -> & ->).
    repeat split.
Qed.

(** C2. From freshly reset accumulators, every [calcularPresionN(mv2)]
    adds exactly [mv2 / 3] to the running sum [pn] and one to the count
    [n]; after any finite sequence of such calls [calcularPresion] sets
    the pressure to the sum of the [mv2_i / 3] divided by the number of
    calls. *)
Theorem calcularPresion_mean_of_impacts (l : list D) (c : Cajas.obj D) :
  (forall mv2 c',
      Cajas.pn (Cajas.calcularPresionN mv2 c') = Cajas.pn c' + mv2 / 3 /\
      Cajas.n (Cajas.calcularPresionN mv2 c') = Cajas.n c' + 1) /\
  Cajas.pn (impactos l (Cajas.actualizarPresion c)) = suma_tercios l /\
  Cajas.n (impactos l (Cajas.actualizarPresion c)) = contar (length l) /\
  Cajas.Getp (Cajas.calcularPresion (impactos l (Cajas.actualizarPresion c)))
  = suma_tercios l / contar (length l).
Proof.
  assert (Hpn : Cajas.pn (impactos l (Cajas.actualizarPresion c)) = suma_tercios l)
    by (rewrite impactos_pn; reflexivity).
  assert (Hn : Cajas.n (impactos l (Cajas.actualizarPresion c)) = contar (length l)).
  { rewrite impactos_n. simpl Cajas.n.
    change (dlit 0) with (contar 0). now rewrite contar_fold. }
  split; [intros mv2 c'; split; reflexivity|].
  split; [exact Hpn|]. split; [exact Hn|].
  rewrite calcularPresion_unguarded, Hpn, Hn. reflexivity.
Qed.

(** C8 (as the code has it). [actualizarPresion] zeroes the running sum
    and the impact count and also the pressure [p] itself, leaving the
    extents alone; no impact reported after the reset, by
    [calcularPresionN] or through [rebotePared], writes the pressure:
    from the reset to the next [calcularPresion], [Getp] returns zero,
    whatever pressure had been computed before. *)
Theorem actualizarPresion_zeroes_pressure_too (l : list D) (c : Cajas.obj D) :
  Cajas.pn (Cajas.actualizarPresion c) = 0 /\
  Cajas.n (Cajas.actualizarPresion c) = 0 /\
  Cajas.Getp (Cajas.actualizarPresion c) = 0 /\
  Cajas.Getp (impactos l (Cajas.actualizarPresion c)) = 0 /\
  (forall e c', Cajas.Getp (snd (Esfera.rebotePared e c')) = Cajas.Getp c') /\
  Cajas.xmin (impactos l (Cajas.actualizarPresion c)) = Cajas.xmin c /\
  Cajas.xmax (impactos l (Cajas.actualizarPresion c)) = Cajas.xmax c /\
  Cajas.ymin (impactos l (Cajas.actualizarPresion c)) = Cajas.ymin c /\
  Cajas.ymax (impactos l (Cajas.actualizarPresion c)) = Cajas.ymax c.
Proof.
  destruct (impactos_frame l (Cajas.actualizarPresion c))
    as (Hp & Hxmin & Hxmax & Hymin & Hymax).
  split; [reflexivity|]. split; [reflexivity|]. split; [reflexivity|].
  split; [exact Hp|]. split.
  - intros e c'. unfold Esfera.rebotePared.
    destruct (_ || _); simpl; destruct (_ || _); reflexivity.
  - repeat split; assumption.
Qed.

End PresionAcumulada.

(** ** Esfera: walls and the collision pass, in every arithmetic *)

Section PaseColisiones.
Context {D : Type} `{Arit D}.

(** The tests of [rebotePared] never read the bounds [ymin] and [ymax]
    of the box: the sphere comes out the same whatever they are. *)
Lemma rebotePared_y_bounds_unused (e : Esfera.obj D) (c : Cajas.obj D) (y1 y2 : D) :
  fst (Esfera.rebotePared e (Cajas.inicio (Cajas.xmin c) (Cajas.xmax c) y1 y2 c))
  = fst (Esfera.rebotePared e c).
Proof.
  unfold Esfera.rebotePared. simpl.
  destruct (_ || _); simpl; destruct (_ || _); reflexivity.
Qed.

(** [colision] touches velocities and headings only. *)
Lemma colision_frame (e otra : Esfera.obj D) :
  let e' := fst (Esfera.colision e otra) in
  let otra' := snd (Esfera.colision e otra) in
  (Esfera.m e', Esfera.x e', Esfera.y e', Esfera.R e')
  = (Esfera.m e, Esfera.x e, Esfera.y e, Esfera.R e) /\
  (Esfera.m otra', Esfera.x otra', Esfera.y otra', Esfera.R otra')
  = (Esfera.m otra, Esfera.x otra, Esfera.y otra, Esfera.R otra).
Proof.
  unfold Esfera.colision.
  destruct (dle _ _); [destruct (deq _ _)|]; split; reflexivity.
Qed.

Lemma colision_sin_contacto (e otra : Esfera.obj D) :
  en_contacto e otra = false -> Esfera.colision e otra = (e, otra).
Proof.
  unfold en_contacto, Esfera.colision, distancia, dist2.
  destruct (dle _ _); [|reflexivity].
  destruct (deq _ _); [reflexivity|discriminate].
Qed.

Lemma poner_mismo (A : Type) (l : list A) (i : nat) (a : A) :
  nth_error l i = Some a -> Simulacion.poner i a l = l.
Proof.
  revert i; induction l as [|b l IH]; intros [|i] Hi; simpl in *;
    try discriminate.
  - now injection Hi as ->.
  - f_equal. now apply IH.
Qed.

Lemma fold_left_fijo (A B : Type) (f : A -> B -> A) (l : list B) (a : A) :
  (forall b, In b l -> f a b = a) -> fold_left f l a = a.
Proof.
  induction l as [|b l IH]; simpl; intro Hf.
  - reflexivity.
  - rewrite (Hf b) by now left. apply IH. intros b' Hb'. apply Hf. now right.
Qed.

Lemma colision_ij_sin_contacto (esferas : list (Esfera.obj D)) (i j : nat) :
  sin_contactos esferas -> i < j -> Simulacion.colision_ij i j esferas = esferas.
Proof.
  intros Hsin Hij. unfold Simulacion.colision_ij.
  destruct (nth_error esferas i) as [a|] eqn:Ha; [|reflexivity].
  destruct (nth_error esferas j) as [b|] eqn:Hb; [|reflexivity].
  rewrite (colision_sin_contacto a b (Hsin i j a b Hij Ha Hb)).
  rewrite (poner_mismo esferas i Ha). now apply poner_mismo.
Qed.

Lemma pase_colisiones_sin_contactos (esferas : list (Esfera.obj D)) :
  sin_contactos esferas -> Simulacion.pase_colisiones esferas = esferas.
Proof.
  intro Hsin. unfold Simulacion.pase_colisiones.
  apply fold_left_fijo. intros i _.
  unfold Simulacion.colisiones_de.
  apply fold_left_fijo. intros j Hj.
  apply in_seq in Hj. apply colision_ij_sin_contacto; [assumption | lia].
Qed.

(** [colision] leaves every pair [i < j] of the vector as it is: the
    pair fails one of the two tests, or the velocities computed for it
    are the ones it has. *)
Definition pares_sin_cambio (esferas : list (Esfera.obj D)) : Prop :=
  forall i j a b,
    i < j ->
    nth_error esferas i = Some a -> nth_error esferas j = Some b ->
    Esfera.colision a b = (a, b).

Lemma sin_contactos_pares_sin_cambio (esferas : list (Esfera.obj D)) :
  sin_contactos esferas -> pares_sin_cambio esferas.
Proof.
  intros Hsin i j a b Hij Ha Hb.
  apply colision_sin_contacto. exact (Hsin i j a b Hij Ha Hb).
Qed.





End PaseColisiones.

(** ** Comparisons in exact arithmetic *)

Lemma Rleb_true (a b : R) : (a <= b)%R -> Rleb a b = true.
Proof.
  intro Hab. unfold Rleb.
  destruct (Rle_dec a b); [reflexivity | contradiction].
Qed.

Lemma Rleb_false (a b : R) : (b < a)%R -> Rleb a b = false.
Proof.
  intro Hab. unfold Rleb.
  destruct (Rle_dec a b); [lra | reflexivity].
Qed.

Lemma Reqb_true (a b : R) : a = b -> Reqb a b = true.
Proof.
  intro Hab. unfold Reqb.
  destruct (Req_dec_T a b); [reflexivity | contradiction].
Qed.

(** ** Signs in binary64, for every input

    From the specification of the primitive operations: taking the
    opposite only flips the sign bit, and rounding does not look at
    the sign. *)

Section SignoBinary64.
Import SpecFloat FloatOps FloatAxioms.
Local Open Scope float_scope.

Lemma SFopp_binary_round_aux (s : bool) (m e : Z) (l : location) :
  SFopp (binary_round_aux prec emax s m e l)
  = binary_round_aux prec emax (negb s) m e l.
Proof.
  unfold binary_round_aux.
  destruct (shr_fexp prec emax m e l) as [mrs' e'].
  destruct (shr_fexp prec emax _ e' loc_Exact) as [mrs'' e''].
  destruct (shr_m mrs''); [reflexivity| |reflexivity].
  destruct (Z.leb _ _); reflexivity.
Qed.




Lemma SF64mul_opuesto (x y : spec_float) :
  SF64mul (SFopp x) y = SFopp (SF64mul x y).
Proof.
  unfold SF64mul.
  destruct x as [sx|sx| |sx mx ex], y as [sy|sy| |sy my ey]; simpl;
    try reflexivity; try (destruct sx, sy; reflexivity).
  rewrite SFopp_binary_round_aux. destruct sx, sy; reflexivity.
Qed.

Lemma SFopp_SFopp (x : spec_float) : SFopp (SFopp x) = x.
Proof.
  destruct x as [s|s| |s m e]; simpl; rewrite ?negb_involutive; reflexivity.
Qed.

Lemma SF64mul_opuesto_r (x y : spec_float) :
  SF64mul x (SFopp y) = SFopp (SF64mul x y).
Proof.
  unfold SF64mul.
  destruct x as [sx|sx| |sx mx ex], y as [sy|sy| |sy my ey]; simpl;
    try reflexivity; try (destruct sx, sy; reflexivity).
  rewrite SFopp_binary_round_aux. destruct sx, sy; reflexivity.
Qed.

Lemma SF64sub_propia (x : spec_float) :
  SF64sub x x = S754_zero false \/ SF64sub x x = S754_nan.
Proof.
  unfold SF64sub.
  destruct x as [sx|sx| |sx mx ex]; simpl;
    try (destruct sx; auto; fail); auto.
  left. rewrite Z.sub_diag. reflexivity.
Qed.

Lemma SFleb_nan (y : spec_float) : SFleb S754_nan y = false.
Proof. destruct y; reflexivity. Qed.



Lemma opuesto_opuesto (a : float) : - - a = a.
Proof. apply Prim2SF_inj. rewrite !opp_spec. apply SFopp_SFopp. Qed.

Lemma producto_opuestos (a b : float) : - a * - b = a * b.
Proof.
  apply Prim2SF_inj. rewrite !mul_spec, !opp_spec.
  rewrite SF64mul_opuesto, SF64mul_opuesto_r. apply SFopp_SFopp.
Qed.

(** The difference of a number with itself is zero, or NaN when the
    number is infinite or NaN. *)
Lemma resta_propia (a : float) : a - a = 0 \/ a - a = nan.
Proof.
  destruct (SF64sub_propia (Prim2SF a)) as [Hz|Hn]; [left | right];
    apply Prim2SF_inj; rewrite sub_spec; assumption.
Qed.

Lemma leb_nan (y : float) : PrimFloat.leb nan y = false.
Proof. rewrite leb_spec. apply SFleb_nan. Qed.


(** In binary64, for every sphere and box, a bounce off the walls
    keeps the speed, and so the kinetic energy, bit for bit, together
    with the mass, the position and the radius: each component of the
    velocity is kept or changes sign, and the square of a number is
    that of its opposite. *)
Theorem rebotePared_keeps_speed_binary64
  (e : Esfera.obj float) (c : Cajas.obj float) :
  let e' := fst (Esfera.rebotePared e c) in
  Esfera.Getv e' = Esfera.Getv e /\
  energia e' = energia e /\
  (Esfera.m e', Esfera.Getx e', Esfera.Gety e', Esfera.R e')
  = (Esfera.m e, Esfera.Getx e, Esfera.Gety e, Esfera.R e) /\
  (Esfera.vx e' = Esfera.vx e \/ Esfera.vx e' = - Esfera.vx e) /\
  (Esfera.vy e' = Esfera.vy e \/ Esfera.vy e' = - Esfera.vy e).
Proof.
  unfold Esfera.rebotePared, energia, Esfera.Getv.
  destruct (_ || _); simpl; destruct (_ || _); simpl;
    rewrite ?producto_opuestos; repeat split; auto.
Qed.

(** In binary64, two spheres with the same centre are left as they
    are, whatever the coordinates: finite ones give a distance of
    zero and the [dist == 0] return, infinite ones or NaN give a
    squared distance that is NaN and fails the first test. *)
Theorem colision_same_centre_binary64 (e otra : Esfera.obj float) :
  Esfera.x otra = Esfera.x e -> Esfera.y otra = Esfera.y e ->
  Esfera.colision e otra = (e, otra).
Proof.
  intros Hx Hy. unfold Esfera.colision. rewrite Hx, Hy.
  cbn [dadd dsub dmul ddiv dsqrt dle deq dlit Binary64].
  destruct (resta_propia (Esfera.x e)) as [-> | ->],
           (resta_propia (Esfera.y e)) as [-> | ->].
  - change (0 * 0 + 0 * 0) with 0.
    destruct (PrimFloat.leb _ _); reflexivity.
  - change (0 * 0 + nan * nan) with nan. now rewrite leb_nan.
  - change (nan * nan + 0 * 0) with nan. now rewrite leb_nan.
  - change (nan * nan + nan * nan) with nan. now rewrite leb_nan.
Qed.

End SignoBinary64.

(** ** Evaluations in binary64 *)

Section EvaluacionBinary64.
Local Open Scope float_scope.

(** C3. With no impact recorded since the reset, [calcularPresion]
    divides zero by zero: in binary64 the pressure becomes NaN, for
    every box. There is no test on the count. *)
Theorem calcularPresion_zero_impacts_is_nan (c : Cajas.obj float) :
  Cajas.Getp (Cajas.calcularPresion (Cajas.actualizarPresion c)) = nan /\
  PrimFloat.is_nan
    (Cajas.Getp (Cajas.calcularPresion (Cajas.actualizarPresion c))) = true.
Proof. split; reflexivity. Qed.

(** C8, the claim as stated fails: the pressure 1 computed before the
    reset is not what [Getp] returns after it. *)
Lemma actualizarPresion_loses_pressure :
  Cajas.Getp caja_con_presion = 1 /\
  Cajas.Getp (Cajas.actualizarPresion caja_con_presion) = 0 /\
  Cajas.Getp (Cajas.actualizarPresion caja_con_presion)
  <> Cajas.Getp caja_con_presion.
Proof.
  repeat split.
  intro E. apply (f_equal (PrimFloat.eqb 0)) in E.
  vm_compute in E. discriminate E.
Qed.

Lemma pase_colisiones_una_vez :
  map (fun e => (Esfera.vx e, Esfera.vy e)) (Simulacion.pase_colisiones [bola_a; bola_b])
  = [(0, 0); (1, 0)].
Proof. vm_compute. reflexivity. Qed.

Lemma pase_colisiones_dos_veces :
  map (fun e => (Esfera.vx e, Esfera.vy e))
      (Simulacion.pase_colisiones (Simulacion.pase_colisiones [bola_a; bola_b]))
  = [(1, 0); (0, 0)].
Proof. vm_compute. reflexivity. Qed.


Lemma sin_contactos_lejanas : sin_contactos [bola_a; bola_lejana].
Proof.
  intros i j a b Hij Ha Hb.
  destruct j as [|[|j]]; [lia | | destruct j; discriminate Hb].
  destruct i as [|i]; [|lia].
  injection Ha as <-. injection Hb as <-. reflexivity.
Qed.






(** The head-on collision of two equal spheres as binary64 runs it:
    the normal components are exchanged, the tangential ones and the
    kinetic energy of the pair are kept, with no rounding at all. *)
Lemma colision_frontal_binary64 :
  let e' := fst (Esfera.colision bola_a bola_b) in
  let otra' := snd (Esfera.colision bola_a bola_b) in
  (v_normal bola_a bola_b bola_a, v_normal bola_a bola_b bola_b) = (1, 0) /\
  (v_normal bola_a bola_b e', v_normal bola_a bola_b otra') = (0, 1) /\
  (v_tangencial bola_a bola_b e', v_tangencial bola_a bola_b otra')
  = (v_tangencial bola_a bola_b bola_a, v_tangencial bola_a bola_b bola_b) /\
  dadd (energia e') (energia otra') = dadd (energia bola_a) (energia bola_b).
Proof. vm_compute. repeat split. Qed.

(** C5. The sphere is within its radius of the top wall of the box, yet
    [rebotePared] leaves it and the box as they were: the two tests on
    [y] read [Getymin] and [Getymax], which return [xmin] and [xmax]. *)
Theorem rebotePared_misses_y_wall :
  dle (dsub (Cajas.ymax caja_ancha) (Esfera.y bola_arriba)) (Esfera.R bola_arriba)
  = true /\
  Esfera.rebotePared bola_arriba caja_ancha = (bola_arriba, caja_ancha).
Proof. split; reflexivity. Qed.

(** C6 (as the code has it). In binary64, 4.95 and 0.1 being rounded
    to it: in the box of extents -5..5, whatever its pressure and its
    accumulators hold, the sphere of mass 1 and radius 0.1 at (4.95, 0)
    with velocity (1, 0), whatever its heading, is after one step with
    [dt = 0.1] at (4.8500000000000005, 0) with velocity (-1, 0); the
    box has been reset and has received the single impact
    [calcularPresionN(1)]: its count is 1, its sum and its pressure are
    1/3 rounded. *)
Theorem paso_escenario_binary64 (p0 n0 pn0 : float)
  (theta0 : Esfera.angulo float) :
  let caja := {| Cajas.xmin := -5; Cajas.xmax := 5; Cajas.ymin := -5;
                 Cajas.ymax := 5; Cajas.p := p0; Cajas.n := n0;
                 Cajas.pn := pn0 |} in
  let e := {| Esfera.m := 1; Esfera.x := 0x1.3cccccccccccdp+2; Esfera.y := 0;
              Esfera.vx := 1; Esfera.vy := 0; Esfera.theta := theta0;
              Esfera.R := 0x1.999999999999ap-4 |} in
  let st := Simulacion.paso 0x1.999999999999ap-4 (caja, [e]) in
  map (fun e => (Esfera.Getx e, Esfera.Gety e)) (snd st)
  = [(0x1.3666666666667p+2, 0)] /\
  map (fun e => (Esfera.vx e, Esfera.vy e)) (snd st) = [(-1, 0)] /\
  fst st = Cajas.calcularPresion (impactos [1] (Cajas.actualizarPresion caja)) /\
  Cajas.n (fst st) = 1 /\
  Cajas.pn (fst st) = 0x1.5555555555555p-2 /\
  Cajas.Getp (fst st) = 0x1.5555555555555p-2.
Proof. vm_compute. repeat split. Qed.

(** C6, the claim as stated fails in binary64: the abscissa after the
    step is not the binary64 number nearest to 4.85 but the next one
    above it. *)
Lemma paso_escenario_misses_4_85 :
  let st := Simulacion.paso 0x1.999999999999ap-4 (caja_cuadrada, [bola_derecha]) in
  map (@Esfera.Getx float) (snd st) = [0x1.3666666666667p+2] /\
  map (fun e => PrimFloat.eqb (Esfera.Getx e) 0x1.3666666666666p+2) (snd st)
  = [false] /\
  PrimFloat.next_up 0x1.3666666666666p+2 = 0x1.3666666666667p+2.
Proof. vm_compute. repeat split. Qed.

End EvaluacionBinary64.

(** ** IntegradorRK4 *)

Section IntegradorExacto.
Local Open Scope R_scope.

Ltac desplegar_rk4 :=
  cbv [IntegradorRK4.nuevo rk4_clasico campo
       por mas entre
       IntegradorRK4.e_x1 IntegradorRK4.e_x2 IntegradorRK4.e_y1 IntegradorRK4.e_y2
       OsciladorDuffing.f1 OsciladorDuffing.f2
       OsciladorDuffing.alfa OsciladorDuffing.beta OsciladorDuffing.gamma
       OsciladorDuffing.omega OsciladorDuffing.k OsciladorDuffing.m
       OsciladorDuffing.delta OsciladorDuffing.t
       OsciladorDuffing.x1 OsciladorDuffing.x2
       OsciladorDuffing.y1 OsciladorDuffing.y2
       nth_error Nat.add option_map
       dle dadd dsub dmul ddiv dopp dsqrt deq dlit Reales
       dcos dpow LibmReales].

Lemma nuevo_oscilador_libre :
  option_map (@IntegradorRK4.e_x1 R) (IntegradorRK4.nuevo oscilador_libre 0)
  = Some (41 / 24).
Proof.
  unfold oscilador_libre. desplegar_rk4. f_equal. field.
Qed.

Lemma rk4_clasico_oscilador_libre :
  option_map (@IntegradorRK4.e_x1 R) (rk4_clasico oscilador_libre 0)
  = Some 1.
Proof.
  unfold oscilador_libre. desplegar_rk4. f_equal. field.
Qed.

(** C7. On the free particle the state appended by the integrator is
    not the classical Runge-Kutta update: in one unit of time at unit
    velocity the classical scheme moves the particle by 1, the exact
    displacement, and the integrator by 41/24, because the stages of the
    positions are advanced with the increments [k] of the positions
    themselves, not with the increments [l] of the velocities. *)
Theorem nuevo_differs_from_rk4_clasico :
  option_map (@IntegradorRK4.e_x1 R) (IntegradorRK4.nuevo oscilador_libre 0)
  = Some (41 / 24) /\
  option_map (@IntegradorRK4.e_x1 R) (rk4_clasico oscilador_libre 0)
  = Some 1 /\
  IntegradorRK4.nuevo oscilador_libre 0 <> rk4_clasico oscilador_libre 0.
Proof.
  split; [exact nuevo_oscilador_libre|].
  split; [exact rk4_clasico_oscilador_libre|].
  intro E. apply (f_equal (option_map (@IntegradorRK4.e_x1 R))) in E.
  rewrite nuevo_oscilador_libre, rk4_clasico_oscilador_libre in E.
  injection E as E. lra.
Qed.

(** [oscilador_libre] is what the constructor and [inicializar] build. *)
Lemma inicializar_oscilador_libre :
  OsciladorDuffing.inicializar 3 0 1 1 0 0 1 0 oscilador_construido
  = Some oscilador_libre.
Proof.
  unfold oscilador_construido, oscilador_libre.
  cbv [OsciladorDuffing.inicializar OsciladorDuffing.llenar_t
       OsciladorDuffing.alfa OsciladorDuffing.beta OsciladorDuffing.gamma
       OsciladorDuffing.omega OsciladorDuffing.k OsciladorDuffing.m
       OsciladorDuffing.delta OsciladorDuffing.t app
       dle dadd Reales].
  rewrite (@Rleb_true 0 1) by lra.
  rewrite (@Rleb_true (0 + 1) 1) by lra.
  rewrite (@Rleb_false (0 + 1 + 1) 1) by lra.
  replace (0 + 1) with 1 by ring. reflexivity.
Qed.

End IntegradorExacto.

Section IntegradorControl.
Context {D : Type} `{Arit D} `{Libm D}.
Import IntegradorRK4.

Lemma agregar_vectores (s : estado D) (osc : OsciladorDuffing.obj D) :
  OsciladorDuffing.t (agregar s osc) = OsciladorDuffing.t osc /\
  OsciladorDuffing.x1 (agregar s osc) = OsciladorDuffing.x1 osc ++ [e_x1 s] /\
  OsciladorDuffing.x2 (agregar s osc) = OsciladorDuffing.x2 osc ++ [e_x2 s] /\
  OsciladorDuffing.y1 (agregar s osc) = OsciladorDuffing.y1 osc ++ [e_y1 s] /\
  OsciladorDuffing.y2 (agregar s osc) = OsciladorDuffing.y2 osc ++ [e_y2 s].
Proof. repeat split. Qed.

(** [integrar] reads inside the vectors, and so returns, whenever the
    object holds two masses, two damping coefficients and at least one
    state, as it does after the constructor of [main] and
    [inicializar]. *)
Lemma nuevo_definido (osc : OsciladorDuffing.obj D) (i : nat) :
  S i < length (OsciladorDuffing.t osc) ->
  i < length (OsciladorDuffing.x1 osc) -> i < length (OsciladorDuffing.x2 osc) ->
  i < length (OsciladorDuffing.y1 osc) -> i < length (OsciladorDuffing.y2 osc) ->
  2 <= length (OsciladorDuffing.m osc) -> 2 <= length (OsciladorDuffing.delta osc) ->
  exists s, nuevo osc i = Some s.
Proof.
  intros Ht Hx1 Hx2 Hy1 Hy2 Hm Hd.
  unfold nuevo, OsciladorDuffing.f1, OsciladorDuffing.f2.
  repeat match goal with
    | |- context [nth_error ?l ?k] =>
        let E := fresh "E" in
        destruct (nth_error l k) eqn:E;
        [| apply nth_error_None in E; lia]
    end.
  eexists; reflexivity.
Qed.

Lemma bucle_definido (restantes i : nat) (osc : OsciladorDuffing.obj D) :
  i + restantes < length (OsciladorDuffing.t osc) \/ restantes = 0 ->
  i < length (OsciladorDuffing.x1 osc) -> i < length (OsciladorDuffing.x2 osc) ->
  i < length (OsciladorDuffing.y1 osc) -> i < length (OsciladorDuffing.y2 osc) ->
  2 <= length (OsciladorDuffing.m osc) -> 2 <= length (OsciladorDuffing.delta osc) ->
  exists r, bucle restantes i osc = Some r.
Proof.
  revert i osc; induction restantes as [|r IH];
    intros i osc Ht Hx1 Hx2 Hy1 Hy2 Hm Hd; simpl.
  - eexists; reflexivity.
  - destruct (@nuevo_definido osc i) as [s ->]; try assumption; [lia|].
    destruct (no_finito s); [eexists; reflexivity|].
    apply IH; simpl; rewrite ?length_app; simpl; try lia; try assumption.
Qed.

Lemma integrar_definido (osc : OsciladorDuffing.obj D) :
  OsciladorDuffing.x1 osc <> [] -> OsciladorDuffing.x2 osc <> [] ->
  OsciladorDuffing.y1 osc <> [] -> OsciladorDuffing.y2 osc <> [] ->
  2 <= length (OsciladorDuffing.m osc) -> 2 <= length (OsciladorDuffing.delta osc) ->
  exists r, integrar osc = Some r.
Proof.
  intros Hx1 Hx2 Hy1 Hy2 Hm Hd. unfold integrar.
  apply bucle_definido; try assumption.
  - destruct (OsciladorDuffing.t osc); simpl; [now right | left; lia].
  - destruct (OsciladorDuffing.x1 osc); simpl; [contradiction | lia].
  - destruct (OsciladorDuffing.x2 osc); simpl; [contradiction | lia].
  - destruct (OsciladorDuffing.y1 osc); simpl; [contradiction | lia].
  - destruct (OsciladorDuffing.y2 osc); simpl; [contradiction | lia].
Qed.

(** What a run of the loop from index [i] with [restantes] iterations
    to go leaves behind: the states [nuevos] it appended, in order. *)
Lemma bucle_nuevos (restantes i : nat) (osc osc' : OsciladorDuffing.obj D)
  (ev : list evento) :
  bucle restantes i osc = Some (osc', ev) ->
  exists nuevos : list (estado D),
    OsciladorDuffing.t osc' = OsciladorDuffing.t osc /\
    OsciladorDuffing.x1 osc' = OsciladorDuffing.x1 osc ++ map (@e_x1 D) nuevos /\
    OsciladorDuffing.x2 osc' = OsciladorDuffing.x2 osc ++ map (@e_x2 D) nuevos /\
    OsciladorDuffing.y1 osc' = OsciladorDuffing.y1 osc ++ map (@e_y1 D) nuevos /\
    OsciladorDuffing.y2 osc' = OsciladorDuffing.y2 osc ++ map (@e_y2 D) nuevos /\
    (forall j s, nth_error nuevos j = Some s -> no_finito s = true ->
                 length nuevos = S j /\ ev = [NaN_detectado (i + j)]) /\
    (Forall (fun s => no_finito s = false) nuevos ->
     ev = [] /\ length nuevos = restantes).
Proof.
  revert i osc; induction restantes as [|r IH]; intros i osc Hb; simpl in Hb.
  - injection Hb as <- <-. exists []. rewrite !app_nil_r.
    do 5 (split; [reflexivity|]). split.
    + intros [|j] s Hs; discriminate Hs.
    + intros _. split; reflexivity.
  - destruct (nuevo osc i) as [s|] eqn:Hs; [|discriminate Hb].
    destruct (no_finito s) eqn:Hfin.
    + injection Hb as <- <-. exists [s].
      do 5 (split; [reflexivity|]). split.
      * intros [|[|j]] s' Hs' _; try discriminate Hs'.
        rewrite Nat.add_0_r. split; reflexivity.
      * intro Hall. inversion Hall; congruence.
    + destruct (IH _ _ Hb) as (nuevos & Ht & Hx1 & Hx2 & Hy1 & Hy2 & Hno & Hsi).
      exists (s :: nuevos). simpl map.
      rewrite Ht, Hx1, Hx2, Hy1, Hy2. simpl.
      rewrite <- !app_assoc. simpl.
      do 5 (split; [reflexivity|]). split.
      * intros [|j] s' Hs' Hnf; simpl in Hs'.
        -- injection Hs' as ->. congruence.
        -- destruct (Hno j s' Hs' Hnf) as [Hlen Hev].
           split; [simpl; now f_equal|].
           rewrite Hev. do 2 f_equal. lia.
      * intro Hall. inversion Hall as [|? ? _ Hall']; subst.
        destruct (Hsi Hall') as [-> Hlen].
        split; [reflexivity | simpl; now f_equal].
Qed.

(** The states appended by a whole run. *)
Lemma integrar_nuevos
  (osc osc' : OsciladorDuffing.obj D) (ev : list evento) :
  integrar osc = Some (osc', ev) ->
  exists nuevos : list (estado D),
    OsciladorDuffing.x1 osc' = OsciladorDuffing.x1 osc ++ map (@e_x1 D) nuevos /\
    OsciladorDuffing.x2 osc' = OsciladorDuffing.x2 osc ++ map (@e_x2 D) nuevos /\
    OsciladorDuffing.y1 osc' = OsciladorDuffing.y1 osc ++ map (@e_y1 D) nuevos /\
    OsciladorDuffing.y2 osc' = OsciladorDuffing.y2 osc ++ map (@e_y2 D) nuevos /\
    (forall j s, nth_error nuevos j = Some s -> no_finito s = true ->
                 length nuevos = S j /\ ev = [NaN_detectado j]) /\
    (Forall (fun s => no_finito s = false) nuevos ->
     ev = [] /\ length nuevos = length (OsciladorDuffing.t osc) - 1).
Proof.
  intro Hint. unfold integrar in Hint.
  destruct (bucle_nuevos _ _ _ Hint)
    as (nuevos & _ & Hx1 & Hx2 & Hy1 & Hy2 & Hno & Hsi).
  exists nuevos. do 4 (split; [assumption|]). split; [|exact Hsi].
  intros j s Hs Hnf. exact (Hno j s Hs Hnf).
Qed.

(** The test of "Comprobación numérica", said with [std::isfinite] of
    the four values of a state. *)
Definition algun_no_finito (s : estado D) : Prop :=
  disfinite (e_x1 s) = false \/ disfinite (e_y1 s) = false \/
  disfinite (e_x2 s) = false \/ disfinite (e_y2 s) = false.

Definition todos_finitos (s : estado D) : Prop :=
  disfinite (e_x1 s) = true /\ disfinite (e_y1 s) = true /\
  disfinite (e_x2 s) = true /\ disfinite (e_y2 s) = true.

Lemma no_finito_algun (s : estado D) :
  no_finito s = true <-> algun_no_finito s.
Proof.
  unfold no_finito, algun_no_finito.
  rewrite !orb_true_iff, !negb_true_iff. tauto.
Qed.

Lemma no_finito_todos (s : estado D) :
  no_finito s = false <-> todos_finitos s.
Proof.
  unfold no_finito, todos_finitos.
  rewrite !orb_false_iff, !negb_false_iff. tauto.
Qed.

(** C9. On an object that holds two masses, two damping coefficients
    and at least one state, [integrar] returns, having appended the
    states [nuevos]; whenever one of the four values of an appended
    state fails [std::isfinite], the integrator stops there and reports
    the step: that state is the last one appended. A run in which the
    four values of every state pass [std::isfinite] reports nothing and
    appends one state per step of the grid. *)
Theorem integrar_halts_at_first_nonfinite (osc : OsciladorDuffing.obj D) :
  OsciladorDuffing.x1 osc <> [] -> OsciladorDuffing.x2 osc <> [] ->
  OsciladorDuffing.y1 osc <> [] -> OsciladorDuffing.y2 osc <> [] ->
  2 <= length (OsciladorDuffing.m osc) -> 2 <= length (OsciladorDuffing.delta osc) ->
  exists (osc' : OsciladorDuffing.obj D) (ev : list evento)
         (nuevos : list (estado D)),
    integrar osc = Some (osc', ev) /\
    OsciladorDuffing.x1 osc' = OsciladorDuffing.x1 osc ++ map (@e_x1 D) nuevos /\
    OsciladorDuffing.x2 osc' = OsciladorDuffing.x2 osc ++ map (@e_x2 D) nuevos /\
    OsciladorDuffing.y1 osc' = OsciladorDuffing.y1 osc ++ map (@e_y1 D) nuevos /\
    OsciladorDuffing.y2 osc' = OsciladorDuffing.y2 osc ++ map (@e_y2 D) nuevos /\
    (forall j s, nth_error nuevos j = Some s -> algun_no_finito s ->
                 length nuevos = S j /\ ev = [NaN_detectado j]) /\
    (Forall todos_finitos nuevos ->
     ev = [] /\ length nuevos = length (OsciladorDuffing.t osc) - 1).
Proof.
  intros Hx1 Hx2 Hy1 Hy2 Hm Hd.
  destruct (integrar_definido osc Hx1 Hx2 Hy1 Hy2 Hm Hd) as [[osc' ev] Hint].
  destruct (@integrar_nuevos osc osc' ev Hint)
    as (nuevos & H1 & H2 & H3 & H4 & Hno & Hsi).
  exists osc', ev, nuevos.
  do 5 (split; [assumption|]). split.
  - intros j s Hs Hnf. apply (Hno j s Hs). now apply no_finito_algun.
  - intro Hall. apply Hsi. revert Hall. apply Forall_impl.
    intros s Hs. now apply no_finito_todos.
Qed.

End IntegradorControl.

Section DesbordeBinary64.
Local Open Scope float_scope.
#[local] Existing Instance libm_evaluacion.

(** The particle launched at the speed 2^1023: the first state has an
    infinite position, and the run stops there. *)
Lemma integrar_halts_at_first_nonfinite_witness :
  exists (osc' : OsciladorDuffing.obj float) (ev : list IntegradorRK4.evento)
         (nuevos : list (IntegradorRK4.estado float)),
    IntegradorRK4.integrar oscilador_veloz = Some (osc', ev) /\
    OsciladorDuffing.x1 osc'
    = OsciladorDuffing.x1 oscilador_veloz
      ++ map (@IntegradorRK4.e_x1 float) nuevos /\
    OsciladorDuffing.x2 osc'
    = OsciladorDuffing.x2 oscilador_veloz
      ++ map (@IntegradorRK4.e_x2 float) nuevos /\
    OsciladorDuffing.y1 osc'
    = OsciladorDuffing.y1 oscilador_veloz
      ++ map (@IntegradorRK4.e_y1 float) nuevos /\
    OsciladorDuffing.y2 osc'
    = OsciladorDuffing.y2 oscilador_veloz
      ++ map (@IntegradorRK4.e_y2 float) nuevos /\
    (forall j s, nth_error nuevos j = Some s -> algun_no_finito s ->
                 length nuevos = S j /\ ev = [IntegradorRK4.NaN_detectado j]) /\
    (Forall (@todos_finitos float _) nuevos ->
     ev = []
     /\ length nuevos = (length (OsciladorDuffing.t oscilador_veloz) - 1)%nat).
Proof.
  apply (@integrar_halts_at_first_nonfinite float _ _ oscilador_veloz);
    simpl; first [discriminate | lia].
Defined.

(** The first state it appends is not finite. *)
Lemma nuevo_oscilador_veloz :
  option_map (fun s => (IntegradorRK4.e_x1 s,
                        PrimFloat.is_finite (IntegradorRK4.e_x1 s)))
             (IntegradorRK4.nuevo oscilador_veloz 0)
  = Some (infinity, false).
Proof. vm_compute. reflexivity. Qed.

End DesbordeBinary64.

Section DesbordeCualquierLibm.
Context (libm : Libm float).
Local Open Scope float_scope.

(** Whatever the libm, the run stops at step 0 with the report, one
    state appended out of the three the grid asks for, and that state
    has an infinite position. *)
Lemma integrar_oscilador_veloz :
  option_map
    (fun r => (OsciladorDuffing.x1 (fst r),
               length (OsciladorDuffing.y1 (fst r)), snd r))
    (IntegradorRK4.integrar oscilador_veloz)
  = Some ([0; infinity], 2%nat, [IntegradorRK4.NaN_detectado 0]).
Proof. vm_compute. reflexivity. Qed.

End DesbordeCualquierLibm.

(** * Further properties of the code *)

(** ** The vector of spheres *)

Section Vector.
Context {A : Type}.

Lemma poner_length (i : nat) (v : A) (l : list A) :
  length (Simulacion.poner i v l) = length l.
Proof.
  revert i; induction l as [|a l IH]; intros [|i]; simpl; auto.
Qed.

Lemma nth_error_poner_mismo (i : nat) (v : A) (l : list A) :
  i < length l -> nth_error (Simulacion.poner i v l) i = Some v.
Proof.
  revert i; induction l as [|a l IH]; intros [|i] Hi; simpl in *;
    try lia; [reflexivity | apply IH; lia].
Qed.

Lemma nth_error_poner_otro (i k : nat) (v : A) (l : list A) :
  i <> k -> nth_error (Simulacion.poner i v l) k = nth_error l k.
Proof.
  revert i k; induction l as [|a l IH]; intros [|i] [|k] Hik; simpl;
    try reflexivity; try contradiction.
  apply IH. lia.
Qed.

Lemma poner_conmuta (i k : nat) (v w : A) (l : list A) :
  i <> k ->
  Simulacion.poner i v (Simulacion.poner k w l)
  = Simulacion.poner k w (Simulacion.poner i v l).
Proof.
  revert i k; induction l as [|a l IH]; intros [|i] [|k] Hik; simpl;
    try reflexivity; try contradiction.
  f_equal. apply IH. lia.
Qed.

Lemma poner_app (pre suf : list A) (a v : A) :
  Simulacion.poner (length pre) v (pre ++ a :: suf) = pre ++ v :: suf.
Proof. induction pre as [|b pre IH]; simpl; [reflexivity | now f_equal]. Qed.

Lemma nth_error_centro (pre suf : list A) (a : A) :
  nth_error (pre ++ a :: suf) (length pre) = Some a.
Proof. induction pre as [|b pre IH]; simpl; auto. Qed.

End Vector.

(** ** The loop of [main]: collisions first, then walls and motion *)

Section BucleFactorizado.
Context {D : Type} `{Arit D}.

(** [esferas[i].rebotePared(caja); esferas[i].muevase(dt);] alone. *)
Definition pared_y_avance (dt : D) (i : nat)
  (st : Cajas.obj D * list (Esfera.obj D)) : Cajas.obj D * list (Esfera.obj D) :=
  let '(caja, esferas) := st in
  match nth_error esferas i with
  | Some e =>
      let '(e', caja') := Esfera.rebotePared e caja in
      (caja', Simulacion.poner i (Esfera.muevase dt e') esferas)
  | None => (caja, esferas)
  end.

Lemma cuerpo_pared_y_avance (dt : D) (i : nat)
  (caja : Cajas.obj D) (esferas : list (Esfera.obj D)) :
  Simulacion.cuerpo dt i (caja, esferas)
  = pared_y_avance dt i (caja, Simulacion.colisiones_de i esferas).
Proof. reflexivity. Qed.

Lemma colision_ij_length (i j : nat) (es : list (Esfera.obj D)) :
  length (Simulacion.colision_ij i j es) = length es.
Proof.
  unfold Simulacion.colision_ij.
  destruct (nth_error es i); [|reflexivity].
  destruct (nth_error es j); [|reflexivity].
  destruct (Esfera.colision _ _). now rewrite !poner_length.
Qed.

Lemma colision_ij_otro (i j k : nat) (es : list (Esfera.obj D)) :
  k <> i -> k <> j ->
  nth_error (Simulacion.colision_ij i j es) k = nth_error es k.
Proof.
  intros Hi Hj. unfold Simulacion.colision_ij.
  destruct (nth_error es i); [|reflexivity].
  destruct (nth_error es j); [|reflexivity].
  destruct (Esfera.colision _ _).
  rewrite !nth_error_poner_otro by auto. reflexivity.
Qed.

Lemma colision_ij_poner (i j k : nat) (v : Esfera.obj D) (es : list (Esfera.obj D)) :
  k <> i -> k <> j ->
  Simulacion.colision_ij i j (Simulacion.poner k v es)
  = Simulacion.poner k v (Simulacion.colision_ij i j es).
Proof.
  intros Hi Hj. unfold Simulacion.colision_ij.
  rewrite !nth_error_poner_otro by auto.
  destruct (nth_error es i); [|reflexivity].
  destruct (nth_error es j); [|reflexivity].
  destruct (Esfera.colision _ _).
  rewrite (poner_conmuta (i := i) (k := k)) by auto.
  rewrite (poner_conmuta (i := j) (k := k)) by auto. reflexivity.
Qed.

Lemma colisiones_js_length (i : nat) (js : list nat) (es : list (Esfera.obj D)) :
  length (fold_left (fun es j => Simulacion.colision_ij i j es) js es) = length es.
Proof.
  revert es; induction js as [|j js IH]; intro es; simpl;
    [reflexivity | now rewrite IH, colision_ij_length].
Qed.

Lemma colisiones_de_length (i : nat) (es : list (Esfera.obj D)) :
  length (Simulacion.colisiones_de i es) = length es.
Proof. apply colisiones_js_length. Qed.

Lemma colisiones_js_otro (i k : nat) (js : list nat) (es : list (Esfera.obj D)) :
  k <> i -> ~ In k js ->
  nth_error (fold_left (fun es j => Simulacion.colision_ij i j es) js es) k
  = nth_error es k.
Proof.
  intro Hi. revert es; induction js as [|j js IH]; intros es Hk; simpl.
  - reflexivity.
  - rewrite IH by (intro; apply Hk; now right).
    apply colision_ij_otro; [assumption | intros ->; apply Hk; now left].
Qed.

Lemma colisiones_js_poner (i k : nat) (v : Esfera.obj D) (js : list nat)
  (es : list (Esfera.obj D)) :
  k <> i -> ~ In k js ->
  fold_left (fun es j => Simulacion.colision_ij i j es) js (Simulacion.poner k v es)
  = Simulacion.poner k v
      (fold_left (fun es j => Simulacion.colision_ij i j es) js es).
Proof.
  intro Hi. revert es; induction js as [|j js IH]; intros es Hk; simpl.
  - reflexivity.
  - rewrite colision_ij_poner; [| assumption | intros ->; apply Hk; now left].
    apply IH. intro; apply Hk; now right.
Qed.

(** The collisions of sphere [i] neither read nor write a sphere of
    smaller index. *)
Lemma colisiones_de_otro (i k : nat) (es : list (Esfera.obj D)) :
  k < i -> nth_error (Simulacion.colisiones_de i es) k = nth_error es k.
Proof.
  intro Hk. unfold Simulacion.colisiones_de.
  apply colisiones_js_otro; [lia | rewrite in_seq; lia].
Qed.

Lemma colisiones_de_poner (i k : nat) (v : Esfera.obj D) (es : list (Esfera.obj D)) :
  k < i ->
  Simulacion.colisiones_de i (Simulacion.poner k v es)
  = Simulacion.poner k v (Simulacion.colisiones_de i es).
Proof.
  intro Hk. unfold Simulacion.colisiones_de. rewrite poner_length.
  apply colisiones_js_poner; [lia | rewrite in_seq; lia].
Qed.

Lemma pase_desde_otro (k : nat) (ids : list nat) (es : list (Esfera.obj D)) :
  Forall (fun i => k < i) ids ->
  nth_error (fold_left (fun es i => Simulacion.colisiones_de i es) ids es) k
  = nth_error es k.
Proof.
  revert es; induction ids as [|i ids IH]; intros es His; simpl.
  - reflexivity.
  - inversion His; subst. rewrite IH by assumption.
    now apply colisiones_de_otro.
Qed.

Lemma pase_desde_poner (k : nat) (v : Esfera.obj D) (ids : list nat)
  (es : list (Esfera.obj D)) :
  Forall (fun i => k < i) ids ->
  fold_left (fun es i => Simulacion.colisiones_de i es) ids (Simulacion.poner k v es)
  = Simulacion.poner k v
      (fold_left (fun es i => Simulacion.colisiones_de i es) ids es).
Proof.
  revert es; induction ids as [|i ids IH]; intros es His; simpl.
  - reflexivity.
  - inversion His; subst. rewrite colisiones_de_poner by assumption.
    now apply IH.
Qed.

Lemma seq_mayores (k m : nat) : Forall (fun i => k < i) (seq (S k) m).
Proof. apply Forall_forall. intros i Hi. apply in_seq in Hi. lia. Qed.

Lemma bucle_factoriza (dt : D) (m k : nat) (caja : Cajas.obj D)
  (es : list (Esfera.obj D)) :
  fold_left (fun st i => Simulacion.cuerpo dt i st) (seq k m) (caja, es)
  = fold_left (fun st i => pared_y_avance dt i st) (seq k m)
      (caja, fold_left (fun es i => Simulacion.colisiones_de i es) (seq k m) es).
Proof.
  revert k caja es; induction m as [|m IH]; intros k caja es.
  - reflexivity.
  - cbn [seq fold_left]. rewrite cuerpo_pared_y_avance.
    set (es1 := Simulacion.colisiones_de k es).
    unfold pared_y_avance at 1 3.
    rewrite (pase_desde_otro es1 (seq_mayores k m)).
    destruct (nth_error es1 k) as [e|].
    + destruct (Esfera.rebotePared e caja) as [e' caja'].
      rewrite IH. now rewrite (pase_desde_poner _ es1 (seq_mayores k m)).
    + apply IH.
Qed.

(** The loop of the step resolves every pair at the positions the
    spheres have when the step begins: the interleaved loop gives what
    the whole collision pass followed by the walls and the motion of
    each sphere gives. *)
Theorem paso_collisions_first (dt : D) (caja : Cajas.obj D)
  (esferas : list (Esfera.obj D)) :
  Simulacion.paso dt (caja, esferas)
  = (let '(caja', esferas') :=
       fold_left (fun st i => pared_y_avance dt i st)
                 (seq 0 (length esferas))
                 (Cajas.actualizarPresion caja, Simulacion.pase_colisiones esferas) in
     (Cajas.calcularPresion caja', esferas')).
Proof.
  unfold Simulacion.paso. rewrite bucle_factoriza. reflexivity.
Qed.

End BucleFactorizado.

(** ** What a step keeps *)

Section PasoConserva.
Context {D : Type} `{Arit D}.

Section Relacion.
(** A relation between a sphere and what a method makes of it. *)
Variable Rel : Esfera.obj D -> Esfera.obj D -> Prop.
Hypothesis Rel_refl : forall e, Rel e e.
Hypothesis Rel_trans : forall a b c, Rel a b -> Rel b c -> Rel a c.
Hypothesis Rel_colision : forall a b,
  Rel a (fst (Esfera.colision a b)) /\ Rel b (snd (Esfera.colision a b)).
Hypothesis Rel_rebotePared : forall e c, Rel e (fst (Esfera.rebotePared e c)).
Hypothesis Rel_muevase : forall t e, Rel e (Esfera.muevase t e).

Lemma Forall2_refl_Rel (l : list (Esfera.obj D)) : Forall2 Rel l l.
Proof. induction l; constructor; auto. Qed.

Lemma Forall2_poner (l l' : list (Esfera.obj D)) (i : nat) (v : Esfera.obj D) :
  Forall2 Rel l l' ->
  (forall a, nth_error l' i = Some a -> Rel a v) ->
  Forall2 Rel l (Simulacion.poner i v l').
Proof.
  intro HF. revert i; induction HF as [|x a l l' Hxa HF IH]; intros i Hv.
  - destruct i; simpl; constructor.
  - destruct i as [|i]; simpl.
    + constructor; [|assumption]. apply Rel_trans with a; [assumption|].
      now apply Hv.
    + constructor; [assumption|]. apply IH. intros b Hb. now apply Hv.
Qed.

Lemma colision_ij_Rel (l es : list (Esfera.obj D)) (i j : nat) :
  i <> j -> Forall2 Rel l es -> Forall2 Rel l (Simulacion.colision_ij i j es).
Proof.
  intros Hij HF. unfold Simulacion.colision_ij.
  destruct (nth_error es i) as [a|] eqn:Ha; [|assumption].
  destruct (nth_error es j) as [b|] eqn:Hb; [|assumption].
  destruct (Rel_colision a b) as [Hra Hrb].
  destruct (Esfera.colision a b) as [a' b']; simpl in Hra, Hrb.
  apply Forall2_poner.
  - apply Forall2_poner; [assumption|]. intros a0 Ha0. congruence.
  - intros b0 Hb0. rewrite nth_error_poner_otro in Hb0 by assumption. congruence.
Qed.

Lemma colisiones_de_Rel (l es : list (Esfera.obj D)) (i : nat) :
  Forall2 Rel l es -> Forall2 Rel l (Simulacion.colisiones_de i es).
Proof.
  unfold Simulacion.colisiones_de.
  assert (Hjs : Forall (fun j => i <> j) (seq (S i) (length es - S i))).
  { apply Forall_forall. intros j Hj. apply in_seq in Hj. lia. }
  revert Hjs. generalize (seq (S i) (length es - S i)) as js.
  intro js. revert es; induction js as [|j js IH]; intros es Hjs HF; simpl.
  - assumption.
  - inversion Hjs; subst. apply IH; [assumption|].
    now apply colision_ij_Rel.
Qed.

Lemma pase_colisiones_Rel (es : list (Esfera.obj D)) :
  Forall2 Rel es (Simulacion.pase_colisiones es).
Proof.
  unfold Simulacion.pase_colisiones.
  generalize (seq 0 (length es)) as ids. intro ids.
  assert (HF : Forall2 Rel es es) by apply Forall2_refl_Rel.
  revert HF. generalize es at 2 4 as es'.
  induction ids as [|i ids IH]; intros es' HF; simpl.
  - assumption.
  - apply IH. now apply colisiones_de_Rel.
Qed.

Lemma cuerpo_Rel (l es : list (Esfera.obj D)) (dt : D) (i : nat) (caja : Cajas.obj D) :
  Forall2 Rel l es -> Forall2 Rel l (snd (Simulacion.cuerpo dt i (caja, es))).
Proof.
  intro HF. unfold Simulacion.cuerpo.
  pose proof (colisiones_de_Rel i HF) as HF1.
  destruct (nth_error (Simulacion.colisiones_de i es) i) as [e|] eqn:He;
    [|assumption].
  pose proof (Rel_rebotePared e caja) as Hr.
  destruct (Esfera.rebotePared e caja) as [e' caja']; simpl in *.
  apply Forall2_poner; [assumption|]. intros a Ha.
  assert (a = e) by congruence. subst a.
  apply Rel_trans with e'; [assumption | apply Rel_muevase].
Qed.

Lemma bucle_Rel (l : list (Esfera.obj D)) (dt : D) (ids : list nat)
  (st : Cajas.obj D * list (Esfera.obj D)) :
  Forall2 Rel l (snd st) ->
  Forall2 Rel l (snd (fold_left (fun st i => Simulacion.cuerpo dt i st) ids st)).
Proof.
  revert st; induction ids as [|i ids IH]; intros st HF; simpl.
  - assumption.
  - apply IH. destruct st as [c es]. now apply cuerpo_Rel.
Qed.

Lemma paso_Rel (dt : D) (caja : Cajas.obj D) (es : list (Esfera.obj D)) :
  Forall2 Rel es (snd (Simulacion.paso dt (caja, es))).
Proof.
  unfold Simulacion.paso.
  pose proof (bucle_Rel (l := es) dt (seq 0 (length es))
                (Cajas.actualizarPresion caja, es)
                (Forall2_refl_Rel es)) as HF.
  destruct (fold_left _ _ _) as [c1 es1]. exact HF.
Qed.

End Relacion.

(** The extents of a box, which no method but [inicio] writes. *)
Definition extremos (c : Cajas.obj D) : D * D * D * D :=
  (Cajas.xmin c, Cajas.xmax c, Cajas.ymin c, Cajas.ymax c).

Lemma rebotePared_extremos (e : Esfera.obj D) (c : Cajas.obj D) :
  extremos (snd (Esfera.rebotePared e c)) = extremos c.
Proof.
  unfold Esfera.rebotePared.
  destruct (_ || _); simpl; destruct (_ || _); reflexivity.
Qed.

Lemma bucle_extremos (dt : D) (ids : list nat)
  (st : Cajas.obj D * list (Esfera.obj D)) :
  extremos (fst (fold_left (fun st i => Simulacion.cuerpo dt i st) ids st))
  = extremos (fst st).
Proof.
  revert st; induction ids as [|i ids IH]; intro st; simpl.
  - reflexivity.
  - rewrite IH. destruct st as [c es]. unfold Simulacion.cuerpo.
    destruct (nth_error _ i) as [e|]; [|reflexivity].
    pose proof (rebotePared_extremos e c) as He.
    destruct (Esfera.rebotePared e c). exact He.
Qed.

Lemma Forall2_map_eq (A B : Type) (f : A -> B) (l l' : list A) :
  Forall2 (fun a b => f b = f a) l l' -> map f l' = map f l.
Proof. induction 1; simpl; congruence. Qed.

(** A step of the simulation changes neither the number of spheres, nor
    the mass or the radius of any of them, nor the extents of the box:
    only positions, velocities, headings and the pressure accumulators
    move. *)
Theorem paso_keeps_spheres_and_box (dt : D) (caja : Cajas.obj D)
  (esferas : list (Esfera.obj D)) :
  let st := Simulacion.paso dt (caja, esferas) in
  length (snd st) = length esferas /\
  map (@Esfera.m D) (snd st) = map (@Esfera.m D) esferas /\
  map (@Esfera.R D) (snd st) = map (@Esfera.R D) esferas /\
  extremos (fst st) = extremos caja.
Proof.
  assert (HF : Forall2 (fun a b => Esfera.m b = Esfera.m a /\ Esfera.R b = Esfera.R a)
                 esferas (snd (Simulacion.paso dt (caja, esferas)))).
  { apply paso_Rel.
    - intro e; split; reflexivity.
    - intros a b c [Hm1 Hr1] [Hm2 Hr2]; split; congruence.
    - intros a b. unfold Esfera.colision.
      destruct (dle _ _); [destruct (deq _ _)|]; repeat split.
    - intros e c. unfold Esfera.rebotePared.
      destruct (_ || _); simpl; destruct (_ || _); split; reflexivity.
    - intros t e; split; reflexivity. }
  cbv zeta. split; [symmetry; exact (Forall2_length HF)|].
  split; [|split].
  - apply Forall2_map_eq. eapply Forall2_impl; [|exact HF]. now intros a b [Hm _].
  - apply Forall2_map_eq. eapply Forall2_impl; [|exact HF]. now intros a b [_ Hr].
  - unfold Simulacion.paso.
    pose proof (bucle_extremos dt (seq 0 (length esferas))
                  (Cajas.actualizarPresion caja, esferas)) as He.
    destruct (fold_left _ _ _) as [c1 es1]. exact He.
Qed.

(** The cached heading is in step with the velocity. *)
Definition angulo_al_dia (e : Esfera.obj D) : Prop :=
  Esfera.theta e = Esfera.atan2 (Esfera.vy e) (Esfera.vx e).

(** [inicio] sets the heading from the velocity it is given, and no
    method lets it go stale: after [muevase], [rebotePared] and
    [colision] (for both spheres), and so after a whole step of the
    simulation, the heading of every sphere is the one of its current
    velocity. *)
Theorem paso_keeps_heading_fresh (dt : D) (caja : Cajas.obj D)
  (esferas : list (Esfera.obj D)) :
  Forall angulo_al_dia esferas ->
  Forall angulo_al_dia (snd (Simulacion.paso dt (caja, esferas))).
Proof.
  intro Hal.
  assert (HF : Forall2 (fun a b => angulo_al_dia a -> angulo_al_dia b)
                 esferas (snd (Simulacion.paso dt (caja, esferas)))).
  { apply paso_Rel.
    - auto.
    - auto.
    - intros a b. unfold Esfera.colision.
      destruct (dle _ _); [destruct (deq _ _)|]; split; auto;
        intros _; reflexivity.
    - intros e c. unfold Esfera.rebotePared.
      destruct (_ || _); simpl; destruct (_ || _); simpl; auto;
        intros _; reflexivity.
    - intros t e He. exact He. }
  revert Hal. induction HF as [|a b l l' Hab HF IH]; intro Hal.
  - constructor.
  - inversion Hal; subst. constructor; auto.
Qed.

Lemma inicio_angulo_al_dia (m0 x0 y0 vx0 vy0 R0 : D) (e : Esfera.obj D) :
  angulo_al_dia (Esfera.inicio m0 x0 y0 vx0 vy0 R0 e).
Proof. reflexivity. Qed.

End PasoConserva.

(** ** A step in which nothing touches anything *)

Section VueloLibre.
Context {D : Type} `{Arit D}.
Local Open Scope dbl_scope.

(** The two tests of [rebotePared], on [x] and on [y]. *)
Definition toca_x (e : Esfera.obj D) (c : Cajas.obj D) : bool :=
  ((Esfera.x e - Cajas.Getxmin c) <= Esfera.R e)
  || ((Cajas.Getxmax c - Esfera.x e) <= Esfera.R e).

Definition toca_y (e : Esfera.obj D) (c : Cajas.obj D) : bool :=
  ((Esfera.y e - Cajas.Getymin c) <= Esfera.R e)
  || ((Cajas.Getymax c - Esfera.y e) <= Esfera.R e).

Lemma rebotePared_libre (e : Esfera.obj D) (c : Cajas.obj D) :
  toca_x e c = false -> toca_y e c = false -> Esfera.rebotePared e c = (e, c).
Proof.
  unfold toca_x, toca_y, Esfera.rebotePared. intros -> Hy. now rewrite Hy.
Qed.

Lemma rebotePared_solo_x (e : Esfera.obj D) (c : Cajas.obj D) :
  toca_x e c = true -> toca_y e c = false ->
  Esfera.rebotePared e c
  = (Esfera.actualizarAngulo (Esfera.con_vx (- Esfera.vx e) e),
     Cajas.calcularPresionN
       (Esfera.m e * (- Esfera.vx e * - Esfera.vx e + Esfera.vy e * Esfera.vy e))
       c).
Proof.
  intros Hx Hy. unfold Esfera.rebotePared.
  change ((Esfera.x e - Cajas.Getxmin c <= Esfera.R e)
          || (Cajas.Getxmax c - Esfera.x e <= Esfera.R e)) with (toca_x e c).
  rewrite Hx. cbv beta iota zeta.
  match goal with
  | |- (if ?t then _ else _) = _ => change t with (toca_y e c)
  end.
  rewrite Hy. reflexivity.
Qed.

Lemma paredes_libres (dt : D) (c : Cajas.obj D) (suf pre : list (Esfera.obj D)) :
  Forall (fun e => toca_x e c = false /\ toca_y e c = false) suf ->
  fold_left (fun st i => pared_y_avance dt i st)
            (seq (length pre) (length suf)) (c, pre ++ suf)
  = (c, pre ++ map (Esfera.muevase dt) suf).
Proof.
  revert pre; induction suf as [|e suf IH]; intros pre Hl; simpl.
  - reflexivity.
  - inversion Hl as [|? ? [Hx Hy] Hl']; subst.
    rewrite nth_error_centro, (rebotePared_libre _ _ Hx Hy), poner_app.
    change (pre ++ Esfera.muevase dt e :: suf)
      with (pre ++ [Esfera.muevase dt e] ++ suf).
    rewrite app_assoc.
    replace (S (length pre)) with (length (pre ++ [Esfera.muevase dt e]))
      by (rewrite length_app; simpl; lia).
    rewrite IH by assumption. now rewrite <- app_assoc.
Qed.

(** When no sphere is within its radius of a wall (as [rebotePared]
    tests it) and no two spheres are in contact, a step moves every
    sphere by its velocity times [dt], leaves every velocity as it was,
    and computes the pressure as 0/0: no impact was recorded. *)
Theorem paso_free_flight (dt : D) (caja : Cajas.obj D)
  (esferas : list (Esfera.obj D)) :
  sin_contactos esferas ->
  Forall (fun e => toca_x e caja = false /\ toca_y e caja = false) esferas ->
  Simulacion.paso dt (caja, esferas)
  = (Cajas.calcularPresion (Cajas.actualizarPresion caja),
     map (Esfera.muevase dt) esferas) /\
  Cajas.Getp (fst (Simulacion.paso dt (caja, esferas))) = 0 / 0.
Proof.
  intros Hsin Hlibre.
  assert (Hp : Simulacion.paso dt (caja, esferas)
               = (Cajas.calcularPresion (Cajas.actualizarPresion caja),
                  map (Esfera.muevase dt) esferas)).
  { unfold Simulacion.paso. rewrite bucle_factoriza.
    fold (Simulacion.pase_colisiones esferas).
    rewrite (pase_colisiones_sin_contactos Hsin).
    rewrite (@paredes_libres dt (Cajas.actualizarPresion caja) esferas [] Hlibre).
    reflexivity. }
  split; [exact Hp|]. rewrite Hp. reflexivity.
Qed.

End VueloLibre.

(** In binary64 that pressure is NaN. *)
Lemma paso_free_flight_witness :
  Simulacion.paso 1%float (caja_ancha, [bola_a; bola_lejana])
  = (Cajas.calcularPresion (Cajas.actualizarPresion caja_ancha),
     map (Esfera.muevase 1%float) [bola_a; bola_lejana]) /\
  Cajas.Getp (fst (Simulacion.paso 1%float (caja_ancha, [bola_a; bola_lejana])))
  = ddiv (dlit 0) (dlit 0).
Proof.
  apply (paso_free_flight 1%float caja_ancha sin_contactos_lejanas).
  repeat (constructor; [split; reflexivity|]). constructor.
Defined.

(** ** Speeds in a step without collisions, in binary64 *)

Section RapidezBinary64.
Local Open Scope float_scope.

(** The mass and the speed, from which [main] adds up the energy. *)
Definition masa_y_rapidez (e : Esfera.obj float) : float * float :=
  (Esfera.m e, Esfera.Getv e).

Lemma rebotePared_masa_y_rapidez (e : Esfera.obj float) (c : Cajas.obj float) :
  masa_y_rapidez (fst (Esfera.rebotePared e c)) = masa_y_rapidez e.
Proof.
  unfold Esfera.rebotePared, masa_y_rapidez, Esfera.Getv.
  destruct (_ || _); simpl; destruct (_ || _); simpl;
    rewrite ?producto_opuestos; reflexivity.
Qed.

Lemma paredes_masa_y_rapidez (dt : float) (suf : list (Esfera.obj float)) :
  forall (pre : list (Esfera.obj float)) (c : Cajas.obj float),
    map masa_y_rapidez
      (snd (fold_left (fun st i => pared_y_avance dt i st)
                      (seq (length pre) (length suf)) (c, pre ++ suf)))
    = map masa_y_rapidez (pre ++ suf).
Proof.
  induction suf as [|e suf IH]; intros pre c; simpl.
  - reflexivity.
  - rewrite nth_error_centro.
    pose proof (rebotePared_masa_y_rapidez e c) as Hr.
    destruct (Esfera.rebotePared e c) as [e' c']. cbn [fst] in Hr.
    rewrite poner_app.
    change (pre ++ Esfera.muevase dt e' :: suf)
      with (pre ++ [Esfera.muevase dt e'] ++ suf).
    rewrite app_assoc.
    replace (S (length pre)) with (length (pre ++ [Esfera.muevase dt e']))
      by (rewrite length_app; simpl; lia).
    rewrite IH, <- app_assoc, !map_app. simpl.
    change (masa_y_rapidez (Esfera.muevase dt e')) with (masa_y_rapidez e').
    now rewrite Hr.
Qed.

(** In binary64, a step at whose start no pair of spheres passes the
    contact tests keeps the mass and the speed [Getv()] of every
    sphere bit for bit, whatever the walls do: a bounce only changes
    the sign of a component, and the square of a number is that of its
    opposite. The energy [main] adds up from the speeds can only change
    in a step that resolves a collision. *)
Theorem paso_without_contact_keeps_speeds
  (dt : float) (caja : Cajas.obj float) (esferas : list (Esfera.obj float)) :
  sin_contactos esferas ->
  map masa_y_rapidez (snd (Simulacion.paso dt (caja, esferas)))
  = map masa_y_rapidez esferas /\
  map (@energia float _) (snd (Simulacion.paso dt (caja, esferas)))
  = map (@energia float _) esferas.
Proof.
  intro Hsin.
  assert (Hm : map masa_y_rapidez (snd (Simulacion.paso dt (caja, esferas)))
               = map masa_y_rapidez esferas).
  { unfold Simulacion.paso. rewrite bucle_factoriza.
    fold (Simulacion.pase_colisiones esferas).
    rewrite (pase_colisiones_sin_contactos Hsin).
    pose proof (@paredes_masa_y_rapidez dt esferas []
                  (Cajas.actualizarPresion caja)) as Hp.
    simpl in Hp. destruct (fold_left _ _ _) as [c1 es1]. exact Hp. }
  split; [exact Hm|].
  assert (He : forall l l' : list (Esfera.obj float),
             map masa_y_rapidez l = map masa_y_rapidez l' ->
             map (@energia float _) l = map (@energia float _) l').
  { induction l as [|a l IH]; intros [|a' l'] Hl; cbn [map] in *;
      try discriminate; [reflexivity|].
    injection Hl as Hma Hva Hl. rewrite (IH _ Hl). f_equal.
    assert (Hv : Esfera.Getv a = Esfera.Getv a') by exact Hva.
    unfold energia. now rewrite Hma, Hv. }
  apply He. exact Hm.
Qed.

End RapidezBinary64.

(** ** A pair with one centre, and a bounce, in exact arithmetic *)

Section ParesExactos.
Local Open Scope R_scope.

Ltac breales := cbn [dle dadd dsub dmul ddiv dopp dsqrt deq dlit Reales].

(** Two spheres with the same centre are left as they are: there is
    no normal to exchange along. *)
Theorem colision_same_centre (e otra : Esfera.obj R) :
  Esfera.x otra = Esfera.x e -> Esfera.y otra = Esfera.y e ->
  Esfera.colision e otra = (e, otra).
Proof.
  intros Hx Hy. unfold Esfera.colision. breales. rewrite Hx, Hy.
  replace ((Esfera.x e - Esfera.x e) * (Esfera.x e - Esfera.x e) +
           (Esfera.y e - Esfera.y e) * (Esfera.y e - Esfera.y e)) with 0 by ring.
  rewrite sqrt_0, (@Reqb_true 0 0) by reflexivity.
  destruct (Rleb _ _); reflexivity.
Qed.

(** A bounce off the walls keeps the speed and the position of the
    sphere: each component of the velocity is kept or changes sign. *)
Theorem rebotePared_keeps_speed (e : Esfera.obj R) (c : Cajas.obj R) :
  let e' := fst (Esfera.rebotePared e c) in
  Esfera.Getv e' = Esfera.Getv e /\
  (Esfera.Getx e', Esfera.Gety e') = (Esfera.Getx e, Esfera.Gety e) /\
  (Esfera.vx e' = Esfera.vx e \/ Esfera.vx e' = - Esfera.vx e) /\
  (Esfera.vy e' = Esfera.vy e \/ Esfera.vy e' = - Esfera.vy e).
Proof.
  unfold Esfera.rebotePared, Esfera.Getv.
  destruct (_ || _); simpl; destruct (_ || _); simpl; repeat split; auto;
    f_equal; ring.
Qed.

End ParesExactos.

(** ** A sphere that stays within reach of a wall *)

Section ParedPegajosa.
Context {D : Type} `{Arit D}.
Local Open Scope dbl_scope.

(** The step of a box holding one sphere. *)
Lemma paso_una_esfera (dt : D) (caja : Cajas.obj D) (e : Esfera.obj D) :
  Simulacion.paso dt (caja, [e])
  = (Cajas.calcularPresion
       (snd (Esfera.rebotePared e (Cajas.actualizarPresion caja))),
     [Esfera.muevase dt (fst (Esfera.rebotePared e (Cajas.actualizarPresion caja)))]).
Proof.
  unfold Simulacion.paso. simpl.
  destruct (Esfera.rebotePared e (Cajas.actualizarPresion caja)). reflexivity.
Qed.

(** The sphere after a bounce in [x] alone and its move. *)
Definition rebotada (dt : D) (e : Esfera.obj D) : Esfera.obj D :=
  Esfera.muevase dt (Esfera.actualizarAngulo (Esfera.con_vx (- Esfera.vx e) e)).

(** The pressure of a step whose only impact is the bounce in [x] of
    the sphere [e]: one contribution to the sum, divided by the count. *)
Definition presion_de_un_rebote (e : Esfera.obj D) : D :=
  (0 + Esfera.m e * (- Esfera.vx e * - Esfera.vx e + Esfera.vy e * Esfera.vy e) / 3)
  / (0 + 1).

(** [rebotePared] looks at the position only, not at the direction of
    the velocity. A sphere within reach of a wall in [x] that is still
    within reach after bouncing and moving bounces again at the next
    step, although it is now moving away from the wall: after two steps
    its velocity in [x] has changed sign twice, and each step has
    recorded one impact and reports the pressure of one bounce. *)
Theorem paso_twice_at_wall (dt : D) (caja : Cajas.obj D) (e : Esfera.obj D) :
  toca_x e caja = true -> toca_y e caja = false ->
  toca_x (rebotada dt e) caja = true -> toca_y (rebotada dt e) caja = false ->
  let st1 := Simulacion.paso dt (caja, [e]) in
  let st2 := Simulacion.paso dt st1 in
  snd st1 = [rebotada dt e] /\
  snd st2 = [rebotada dt (rebotada dt e)] /\
  map (@Esfera.vx D) (snd st2) = [- - Esfera.vx e] /\
  map (@Esfera.Getx D) (snd st2)
  = [Esfera.x e + - Esfera.vx e * dt + - - Esfera.vx e * dt] /\
  Cajas.n (fst st1) = 0 + 1 /\ Cajas.n (fst st2) = 0 + 1 /\
  Cajas.Getp (fst st1) = presion_de_un_rebote e /\
  Cajas.Getp (fst st2) = presion_de_un_rebote (rebotada dt e).
Proof.
  intros Hx Hy Hx1 Hy1 st1 st2. subst st2 st1.
  rewrite paso_una_esfera.
  rewrite (@rebotePared_solo_x D _ e (Cajas.actualizarPresion caja) Hx Hy).
  cbn [fst snd].
  change (Esfera.muevase dt
            (Esfera.actualizarAngulo (Esfera.con_vx (dopp (Esfera.vx e)) e)))
    with (rebotada dt e).
  match goal with
  | |- context [Simulacion.paso dt (?c, _)] => set (c1 := c)
  end.
  rewrite paso_una_esfera.
  rewrite (@rebotePared_solo_x D _ (rebotada dt e) (Cajas.actualizarPresion c1)
             Hx1 Hy1).
  subst c1. repeat split.
Qed.

End ParedPegajosa.

Section ParedPegajosaBinary64.
Local Open Scope float_scope.

(** In binary64 the sphere of the theorem above has, after the two
    steps, its first velocity again, bit for bit, and the heading of
    that velocity; its abscissa has gone back and forth by the same
    amount, each move rounded. It never leaves the wall by itself. *)
Theorem paso_twice_at_wall_returns_velocity
  (dt : float) (caja : Cajas.obj float) (e : Esfera.obj float) :
  toca_x e caja = true -> toca_y e caja = false ->
  toca_x (rebotada dt e) caja = true -> toca_y (rebotada dt e) caja = false ->
  snd (Simulacion.paso dt (Simulacion.paso dt (caja, [e])))
  = [Esfera.con_pos
       (Esfera.x e + - Esfera.vx e * dt + Esfera.vx e * dt)
       (Esfera.y e + Esfera.vy e * dt + Esfera.vy e * dt)
       (Esfera.actualizarAngulo e)].
Proof.
  intros Hx Hy Hx1 Hy1.
  rewrite paso_una_esfera.
  rewrite (@rebotePared_solo_x float _ e (Cajas.actualizarPresion caja) Hx Hy).
  cbn [fst snd].
  change (Esfera.muevase dt
            (Esfera.actualizarAngulo (Esfera.con_vx (dopp (Esfera.vx e)) e)))
    with (rebotada dt e).
  match goal with
  | |- context [Simulacion.paso dt (?c, _)] => set (c1 := c)
  end.
  rewrite paso_una_esfera.
  rewrite (@rebotePared_solo_x float _ (rebotada dt e) (Cajas.actualizarPresion c1)
             Hx1 Hy1).
  cbn [fst snd]. unfold rebotada, Esfera.muevase, Esfera.actualizarAngulo,
    Esfera.con_vx, Esfera.con_pos.
  cbn [Esfera.m Esfera.x Esfera.y Esfera.vx Esfera.vy Esfera.theta Esfera.R
       dadd dmul dopp Binary64].
  rewrite opuesto_opuesto. reflexivity.
Qed.

End ParedPegajosaBinary64.

(** ** OsciladorDuffing and IntegradorRK4: when a run is defined *)

Section IntegrarDefinido.
Context {D : Type} `{Arit D} `{Libm D}.
Import IntegradorRK4.

Lemma nuevo_indefinido (osc : OsciladorDuffing.obj D) :
  OsciladorDuffing.x1 osc = [] \/ OsciladorDuffing.x2 osc = [] \/
  OsciladorDuffing.y1 osc = [] \/ OsciladorDuffing.y2 osc = [] \/
  length (OsciladorDuffing.m osc) < 2 \/ length (OsciladorDuffing.delta osc) < 2 ->
  nuevo osc 0 = None.
Proof.
  intro Hmal. destruct (nuevo osc 0) as [s|] eqn:E; [exfalso | reflexivity].
  unfold nuevo, OsciladorDuffing.f1, OsciladorDuffing.f2 in E.
  repeat match type of E with
    | context [nth_error ?l ?k] =>
        let Hl := fresh "Hl" in
        destruct (nth_error l k) eqn:Hl; [|discriminate E]
    end.
  destruct Hmal as [Hm|[Hm|[Hm|[Hm|[Hm|Hm]]]]];
    try (rewrite Hm in *; discriminate).
  - assert (Hs : nth_error (OsciladorDuffing.m osc) 1 <> None) by congruence.
    apply nth_error_Some in Hs. lia.
  - assert (Hs : nth_error (OsciladorDuffing.delta osc) 1 <> None) by congruence.
    apply nth_error_Some in Hs. lia.
Qed.

(** [integrar] reads out of range exactly when the time grid has two
    points or more and a state vector is empty or fewer than two masses
    or damping coefficients were given to the constructor; on a grid of
    fewer than two points it reads nothing. *)
Theorem integrar_undefined_iff (osc : OsciladorDuffing.obj D) :
  integrar osc = None <->
  2 <= length (OsciladorDuffing.t osc) /\
  (OsciladorDuffing.x1 osc = [] \/ OsciladorDuffing.x2 osc = [] \/
   OsciladorDuffing.y1 osc = [] \/ OsciladorDuffing.y2 osc = [] \/
   length (OsciladorDuffing.m osc) < 2 \/ length (OsciladorDuffing.delta osc) < 2).
Proof.
  split.
  - intro Hnone.
    destruct (le_lt_dec 2 (length (OsciladorDuffing.t osc))) as [Ht|Ht].
    + split; [assumption|].
      destruct (OsciladorDuffing.x1 osc) as [|a1 l1] eqn:E1; [now left|].
      destruct (OsciladorDuffing.x2 osc) as [|a2 l2] eqn:E2; [now right; left|].
      destruct (OsciladorDuffing.y1 osc) as [|a3 l3] eqn:E3;
        [now right; right; left|].
      destruct (OsciladorDuffing.y2 osc) as [|a4 l4] eqn:E4;
        [now right; right; right; left|].
      destruct (le_lt_dec 2 (length (OsciladorDuffing.m osc))) as [Hm|Hm];
        [|now right; right; right; right; left].
      destruct (le_lt_dec 2 (length (OsciladorDuffing.delta osc))) as [Hd|Hd];
        [|now right; right; right; right; right].
      exfalso. destruct (integrar_definido osc) as [r Hr];
        try assumption; try (rewrite ?E1, ?E2, ?E3, ?E4; discriminate).
      congruence.
    + exfalso. unfold integrar in Hnone.
      replace (length (OsciladorDuffing.t osc) - 1) with 0 in Hnone by lia.
      discriminate Hnone.
  - intros [Ht Hmal]. unfold integrar.
    destruct (length (OsciladorDuffing.t osc) - 1) as [|r] eqn:Er; [lia|].
    simpl. now rewrite (nuevo_indefinido osc Hmal).
Qed.

(** Each iteration pushes onto the four state vectors together, at
    most once per step of the grid, and a run without a report pushes
    once per step. *)
Lemma bucle_longitudes (restantes i : nat) (osc osc' : OsciladorDuffing.obj D)
  (ev : list evento) :
  bucle restantes i osc = Some (osc', ev) ->
  exists k, k <= restantes /\ (ev = [] -> k = restantes) /\
    OsciladorDuffing.t osc' = OsciladorDuffing.t osc /\
    length (OsciladorDuffing.x1 osc') = length (OsciladorDuffing.x1 osc) + k /\
    length (OsciladorDuffing.x2 osc') = length (OsciladorDuffing.x2 osc) + k /\
    length (OsciladorDuffing.y1 osc') = length (OsciladorDuffing.y1 osc) + k /\
    length (OsciladorDuffing.y2 osc') = length (OsciladorDuffing.y2 osc) + k.
Proof.
  revert i osc; induction restantes as [|r IH]; intros i osc Hb; simpl in Hb.
  - injection Hb as <- <-. exists 0. repeat split; lia.
  - destruct (nuevo osc i) as [s|]; [|discriminate Hb].
    destruct (no_finito s).
    + injection Hb as <- <-. exists 1. simpl. rewrite !length_app. simpl.
      repeat split; try lia. discriminate.
    + destruct (IH _ _ Hb) as (k & Hk & Hev & Ht & H1 & H2 & H3 & H4).
      exists (S k). simpl in *. rewrite !length_app in *. simpl in *.
      repeat split; try lia; try assumption. intro E. specialize (Hev E). lia.
Qed.

(** The rows [guardarDatos] writes after the header: one for every
    index below both [t.size()] and [x1.size()], each read from the
    five vectors. The formatting of the numbers is left out. *)
Definition fila (osc : OsciladorDuffing.obj D) (i : nat)
  : option (D * D * D * D * D) :=
  t_i <- nth_error (OsciladorDuffing.t osc) i ;;
  x1_i <- nth_error (OsciladorDuffing.x1 osc) i ;;
  x2_i <- nth_error (OsciladorDuffing.x2 osc) i ;;
  y1_i <- nth_error (OsciladorDuffing.y1 osc) i ;;
  y2_i <- nth_error (OsciladorDuffing.y2 osc) i ;;
  Some (t_i, x1_i, x2_i, y1_i, y2_i).

Fixpoint filas (osc : OsciladorDuffing.obj D) (indices : list nat)
  : option (list (D * D * D * D * D)) :=
  match indices with
  | [] => Some []
  | i :: indices' =>
      f <- fila osc i ;;
      fs <- filas osc indices' ;;
      Some (f :: fs)
  end.

Definition guardarDatos (osc : OsciladorDuffing.obj D)
  : option (list (D * D * D * D * D)) :=
  filas osc (seq 0 (Nat.min (length (OsciladorDuffing.t osc))
                            (length (OsciladorDuffing.x1 osc)))).

Lemma filas_definidas (osc : OsciladorDuffing.obj D) (indices : list nat) :
  Forall (fun i => i < length (OsciladorDuffing.t osc) /\
                   i < length (OsciladorDuffing.x1 osc) /\
                   i < length (OsciladorDuffing.x2 osc) /\
                   i < length (OsciladorDuffing.y1 osc) /\
                   i < length (OsciladorDuffing.y2 osc)) indices ->
  exists fs, filas osc indices = Some fs /\ length fs = length indices.
Proof.
  induction 1 as [|i indices (Ht & H1 & H2 & H3 & H4) _ IH]; simpl.
  - now exists [].
  - destruct IH as (fs & -> & Hlen). unfold fila.
    repeat match goal with
      | |- context [nth_error ?l i] =>
          let E := fresh "E" in
          destruct (nth_error l i) eqn:E; [| apply nth_error_None in E; lia]
      end.
    eexists; split; [reflexivity | simpl; now f_equal].
Qed.

(** After [integrar] has run on an object that held one state, as
    [inicializar] leaves it, [guardarDatos] reads inside the vectors and
    writes one row per state held, never more rows than the grid has
    times; a run without a report on a grid that is not empty leaves a
    row for every time of the grid. *)
Theorem guardarDatos_after_integrar (osc : OsciladorDuffing.obj D) :
  length (OsciladorDuffing.x1 osc) = 1 -> length (OsciladorDuffing.x2 osc) = 1 ->
  length (OsciladorDuffing.y1 osc) = 1 -> length (OsciladorDuffing.y2 osc) = 1 ->
  2 <= length (OsciladorDuffing.m osc) -> 2 <= length (OsciladorDuffing.delta osc) ->
  exists osc' ev rows,
    integrar osc = Some (osc', ev) /\
    guardarDatos osc' = Some rows /\
    length rows = Nat.min (length (OsciladorDuffing.t osc))
                          (length (OsciladorDuffing.x1 osc')) /\
    (OsciladorDuffing.t osc <> [] -> length rows = length (OsciladorDuffing.x1 osc')) /\
    (OsciladorDuffing.t osc <> [] -> ev = [] ->
     length rows = length (OsciladorDuffing.t osc)).
Proof.
  intros H1 H2 H3 H4 Hm Hd.
  destruct (integrar_definido osc) as [[osc' ev] Hint]; try assumption;
    try (intro E; rewrite E in *; discriminate).
  pose proof Hint as Hb. unfold integrar in Hb.
  apply bucle_longitudes in Hb.
  destruct Hb as (k & Hk & Hev & Ht & L1 & L2 & L3 & L4).
  destruct (@filas_definidas osc'
              (seq 0 (Nat.min (length (OsciladorDuffing.t osc'))
                              (length (OsciladorDuffing.x1 osc')))))
    as (rows & Hrows & Hlen).
  { apply Forall_forall. intros i Hi. apply in_seq in Hi. lia. }
  exists osc', ev, rows. rewrite length_seq, Ht in Hlen.
  split; [assumption|]. split; [exact Hrows|]. split; [assumption|].
  assert (Hne : OsciladorDuffing.t osc <> [] -> 1 <= length (OsciladorDuffing.t osc)).
  { destruct (OsciladorDuffing.t osc); [congruence | simpl; lia]. }
  split.
  - intro Hn. specialize (Hne Hn). lia.
  - intros Hn E. specialize (Hne Hn). specialize (Hev E). lia.
Qed.

End IntegrarDefinido.

(** ** OsciladorDuffing::inicializar: the time grid *)

(** The times pushed by the loop of [inicializar] when it makes [n]
    turns from [ti]: each is the one before plus [dt]. *)
Fixpoint rejilla {D : Type} `{Arit D} (n : nat) (ti dt : D) : list D :=
  match n with
  | O => []
  | S n' => ti :: rejilla n' (dadd ti dt) dt
  end.

Section Rejilla.
Context {D : Type} `{Arit D}.
Local Open Scope dbl_scope.

(** The loop variable [ti] after [n] turns from [ti]. *)
Fixpoint avance (n : nat) (ti dt : D) : D :=
  match n with
  | O => ti
  | S n' => avance n' (ti + dt) dt
  end.

Lemma llenar_t_rejilla (tf dt : D) (n : nat) :
  forall (tests : nat) (ti : D) (t : list D),
    Forall (fun x => (x <= tf) = true) (rejilla n ti dt) ->
    (avance n ti dt <= tf) = false ->
    (n < tests)%nat ->
    OsciladorDuffing.llenar_t tests ti tf dt t = Some (t ++ rejilla n ti dt).
Proof.
  induction n as [|n IH]; intros tests ti t Hall Hlast Htests;
    (destruct tests as [|tests]; [lia|]); simpl in *.
  - rewrite Hlast. now rewrite app_nil_r.
  - inversion Hall as [|? ? Hti Hall']; subst. rewrite Hti.
    rewrite (IH tests (ti + dt) (t ++ [ti]) Hall' Hlast) by lia.
    now rewrite <- app_assoc.
Qed.

(** In every arithmetic, when the loop variable passes the test
    [ti <= tf] at its first [n] values [t0], [t0 + dt], [t0 + dt + dt],
    ... and fails it at the next one, [inicializar] returns: it has
    pushed those [n] running sums after the times the object already
    holds, which it does not clear, has set the four state vectors to
    the initial state and has kept the parameters. *)
Theorem inicializar_appends_grid
  (n tests : nat) (t0 tf dt x1_0 x2_0 y1_0 y2_0 : D)
  (osc : OsciladorDuffing.obj D) :
  Forall (fun x => (x <= tf) = true) (rejilla n t0 dt) ->
  (avance n t0 dt <= tf) = false ->
  (n < tests)%nat ->
  exists osc',
    OsciladorDuffing.inicializar tests t0 tf dt x1_0 x2_0 y1_0 y2_0 osc
    = Some osc' /\
    OsciladorDuffing.t osc' = OsciladorDuffing.t osc ++ rejilla n t0 dt /\
    (OsciladorDuffing.x1 osc', OsciladorDuffing.x2 osc',
     OsciladorDuffing.y1 osc', OsciladorDuffing.y2 osc')
    = ([x1_0], [x2_0], [y1_0], [y2_0]) /\
    (OsciladorDuffing.alfa osc', OsciladorDuffing.beta osc',
     OsciladorDuffing.gamma osc', OsciladorDuffing.omega osc',
     OsciladorDuffing.k osc', OsciladorDuffing.m osc', OsciladorDuffing.delta osc')
    = (OsciladorDuffing.alfa osc, OsciladorDuffing.beta osc,
       OsciladorDuffing.gamma osc, OsciladorDuffing.omega osc,
       OsciladorDuffing.k osc, OsciladorDuffing.m osc, OsciladorDuffing.delta osc).
Proof.
  intros Hall Hlast Htests. unfold OsciladorDuffing.inicializar.
  rewrite (@llenar_t_rejilla tf dt n tests t0 (OsciladorDuffing.t osc)
             Hall Hlast Htests).
  eexists. split; [reflexivity|]. repeat split.
Qed.

(** In every arithmetic, when adding the step leaves the first time as
    it is ([t0 + dt] is [t0]: a zero step, or in binary64 a step below
    half a unit in the last place of [t0]) and [t0 <= tf], the loop of
    [inicializar] never ends: no number of tests is enough. *)
Theorem inicializar_stalls_when_step_is_absorbed
  (tests : nat) (t0 tf dt x1_0 x2_0 y1_0 y2_0 : D)
  (osc : OsciladorDuffing.obj D) :
  (t0 <= tf) = true -> t0 + dt = t0 ->
  OsciladorDuffing.inicializar tests t0 tf dt x1_0 x2_0 y1_0 y2_0 osc = None.
Proof.
  intros Hle Hfix. unfold OsciladorDuffing.inicializar.
  assert (Hl : forall t, OsciladorDuffing.llenar_t tests t0 tf dt t = None).
  { induction tests as [|tests IH]; intro t; simpl.
    - reflexivity.
    - rewrite Hle, Hfix. apply IH. }
  now rewrite Hl.
Qed.

End Rejilla.

(** ** IntegradorRK4: what the new positions depend on *)

Section PosicionSinFuerza.
Context {D : Type} `{Arit D} `{Libm D}.
Import IntegradorRK4.

(** In every arithmetic, the position that an iteration of [integrar]
    appends for an oscillator depends only on the two times of the step
    and on the position and the velocity of that oscillator at the
    start of the step: two objects that agree on these get the same new
    position, whatever their parameters, masses and damping and
    whatever the other oscillator does. No force enters the position
    within a step. *)
Theorem nuevo_positions_ignore_forces
  (osc osc' : OsciladorDuffing.obj D) (i : nat) (s s' : estado D) :
  nth_error (OsciladorDuffing.t osc) i = nth_error (OsciladorDuffing.t osc') i ->
  nth_error (OsciladorDuffing.t osc) (i + 1)
  = nth_error (OsciladorDuffing.t osc') (i + 1) ->
  nuevo osc i = Some s -> nuevo osc' i = Some s' ->
  (nth_error (OsciladorDuffing.x1 osc) i = nth_error (OsciladorDuffing.x1 osc') i ->
   nth_error (OsciladorDuffing.y1 osc) i = nth_error (OsciladorDuffing.y1 osc') i ->
   e_x1 s = e_x1 s') /\
  (nth_error (OsciladorDuffing.x2 osc) i = nth_error (OsciladorDuffing.x2 osc') i ->
   nth_error (OsciladorDuffing.y2 osc) i = nth_error (OsciladorDuffing.y2 osc') i ->
   e_x2 s = e_x2 s').
Proof.
  intros Ht Ht1 Hs Hs'. unfold nuevo in Hs, Hs'.
  rewrite <- Ht, <- Ht1 in Hs'.
  destruct (nth_error (OsciladorDuffing.t osc) i) as [t_i|]; [|discriminate Hs].
  destruct (nth_error (OsciladorDuffing.t osc) (i + 1)) as [t_i1|];
    [|discriminate Hs].
  destruct (nth_error (OsciladorDuffing.x1 osc) i) as [a1|]; [|discriminate Hs].
  destruct (nth_error (OsciladorDuffing.x2 osc) i) as [a2|]; [|discriminate Hs].
  destruct (nth_error (OsciladorDuffing.y1 osc) i) as [b1|]; [|discriminate Hs].
  destruct (nth_error (OsciladorDuffing.y2 osc) i) as [b2|]; [|discriminate Hs].
  destruct (nth_error (OsciladorDuffing.x1 osc') i) as [a1'|]; [|discriminate Hs'].
  destruct (nth_error (OsciladorDuffing.x2 osc') i) as [a2'|]; [|discriminate Hs'].
  destruct (nth_error (OsciladorDuffing.y1 osc') i) as [b1'|]; [|discriminate Hs'].
  destruct (nth_error (OsciladorDuffing.y2 osc') i) as [b2'|]; [|discriminate Hs'].
  repeat match type of Hs with
    | match ?o with Some _ => _ | None => _ end = _ =>
        destruct o; [|discriminate Hs]
    end.
  repeat match type of Hs' with
    | match ?o with Some _ => _ | None => _ end = _ =>
        destruct o; [|discriminate Hs']
    end.
  injection Hs as <-. injection Hs' as <-. cbn [e_x1 e_x2].
  split; intros Ha Hb; injection Ha as <-; injection Hb as <-; reflexivity.
Qed.

End PosicionSinFuerza.

(** ** Instances of the hypotheses *)

Section Instancias.
Local Open Scope R_scope.

Lemma colision_same_centre_witness :
  Esfera.colision esfera_izquierda esfera_izquierda
  = (esfera_izquierda, esfera_izquierda).
Proof.
  apply (@colision_same_centre esfera_izquierda esfera_izquierda); reflexivity.
Defined.

Lemma paso_keeps_heading_fresh_witness :
  Forall angulo_al_dia
    (snd (Simulacion.paso 1%float (caja_ancha, [bola_a; bola_b]))).
Proof.
  apply (@paso_keeps_heading_fresh float _ 1%float caja_ancha [bola_a; bola_b]).
  repeat constructor.
Defined.

Lemma guardarDatos_after_integrar_witness :
  exists osc' ev rows,
    IntegradorRK4.integrar oscilador_libre = Some (osc', ev) /\
    guardarDatos osc' = Some rows /\
    length rows = Nat.min (length (OsciladorDuffing.t oscilador_libre))
                          (length (OsciladorDuffing.x1 osc')) /\
    (OsciladorDuffing.t oscilador_libre <> [] ->
     length rows = length (OsciladorDuffing.x1 osc')) /\
    (OsciladorDuffing.t oscilador_libre <> [] -> ev = [] ->
     length rows = length (OsciladorDuffing.t oscilador_libre)).
Proof.
  apply (@guardarDatos_after_integrar R _ _ oscilador_libre);
    simpl; first [reflexivity | lia].
Defined.

End Instancias.

Section InstanciasBinary64.
Local Open Scope float_scope.
#[local] Existing Instance libm_evaluacion.

(** The sphere next to the left wall with the step [dt = 0.01] that
    [main] uses: it is still within reach of the wall after its first
    move. *)
Lemma paso_twice_at_wall_witness :
  let st1 := Simulacion.paso dt_main (caja_0_10, [bola_izquierda]) in
  let st2 := Simulacion.paso dt_main st1 in
  snd st1 = [rebotada dt_main bola_izquierda] /\
  snd st2 = [rebotada dt_main (rebotada dt_main bola_izquierda)] /\
  map (@Esfera.vx float) (snd st2) = [- - Esfera.vx bola_izquierda] /\
  map (@Esfera.Getx float) (snd st2)
  = [Esfera.x bola_izquierda + - Esfera.vx bola_izquierda * dt_main
     + - - Esfera.vx bola_izquierda * dt_main] /\
  Cajas.n (fst st1) = 0 + 1 /\ Cajas.n (fst st2) = 0 + 1 /\
  Cajas.Getp (fst st1) = presion_de_un_rebote bola_izquierda /\
  Cajas.Getp (fst st2)
  = presion_de_un_rebote (rebotada dt_main bola_izquierda).
Proof.
  exact (@paso_twice_at_wall float _ dt_main caja_0_10 bola_izquierda
           eq_refl eq_refl eq_refl eq_refl).
Defined.

Lemma paso_twice_at_wall_returns_velocity_witness :
  snd (Simulacion.paso dt_main (Simulacion.paso dt_main
                                  (caja_0_10, [bola_izquierda])))
  = [Esfera.con_pos
       (Esfera.x bola_izquierda + - Esfera.vx bola_izquierda * dt_main
        + Esfera.vx bola_izquierda * dt_main)
       (Esfera.y bola_izquierda + Esfera.vy bola_izquierda * dt_main
        + Esfera.vy bola_izquierda * dt_main)
       (Esfera.actualizarAngulo bola_izquierda)].
Proof.
  exact (@paso_twice_at_wall_returns_velocity dt_main caja_0_10 bola_izquierda
           eq_refl eq_refl eq_refl eq_refl).
Defined.

(** The abscissa itself does not come back: 0.06 becomes the binary64
    number 0.059999999999999991. *)
Lemma paso_twice_at_wall_abscissa :
  map (fun e => (Esfera.Getx e, PrimFloat.eqb (Esfera.Getx e)
                                              (Esfera.x bola_izquierda)))
      (snd (Simulacion.paso dt_main (Simulacion.paso dt_main
                                       (caja_0_10, [bola_izquierda]))))
  = [(0x1.eb851eb851eb7p-5, false)].
Proof. vm_compute. reflexivity. Qed.

(** [inicializar(0, 1, 0.25, 0, 0, 1, 0)] on the object as built: five
    times, the last one [tf] itself. *)
Lemma inicializar_appends_grid_witness :
  exists osc',
    OsciladorDuffing.inicializar 10 0 1 0.25 0 0 1 0 oscilador_nuevo
    = Some osc' /\
    OsciladorDuffing.t osc'
    = OsciladorDuffing.t oscilador_nuevo ++ rejilla 5 0 0.25 /\
    (OsciladorDuffing.x1 osc', OsciladorDuffing.x2 osc',
     OsciladorDuffing.y1 osc', OsciladorDuffing.y2 osc')
    = ([0], [0], [1], [0]) /\
    (OsciladorDuffing.alfa osc', OsciladorDuffing.beta osc',
     OsciladorDuffing.gamma osc', OsciladorDuffing.omega osc',
     OsciladorDuffing.k osc', OsciladorDuffing.m osc', OsciladorDuffing.delta osc')
    = (OsciladorDuffing.alfa oscilador_nuevo, OsciladorDuffing.beta oscilador_nuevo,
       OsciladorDuffing.gamma oscilador_nuevo,
       OsciladorDuffing.omega oscilador_nuevo,
       OsciladorDuffing.k oscilador_nuevo, OsciladorDuffing.m oscilador_nuevo,
       OsciladorDuffing.delta oscilador_nuevo).
Proof.
  apply (@inicializar_appends_grid float _ 5 10 0 1 0.25 0 0 1 0 oscilador_nuevo).
  - repeat (constructor; [reflexivity|]). constructor.
  - reflexivity.
  - lia.
Defined.

(** At 1e17 the unit step is below half a unit in the last place:
    [inicializar(1e17, 1e17 + 100, 1, ...)] does not leave its loop,
    though the step is positive. *)
Lemma inicializar_stalls_when_step_is_absorbed_witness :
  PrimFloat.ltb 0 1 = true /\
  OsciladorDuffing.inicializar 1000 1e17 (1e17 + 100) 1 0 0 1 0 oscilador_nuevo
  = None.
Proof.
  split; [reflexivity|].
  apply (@inicializar_stalls_when_step_is_absorbed float _ 1000 1e17
           (1e17 + 100) 1 0 0 1 0 oscilador_nuevo); reflexivity.
Defined.

(** The free pair and the forced pair take the first oscillator to the
    same position, and to different velocities. *)
Lemma nuevo_positions_ignore_forces_witness :
  exists s s',
    IntegradorRK4.nuevo oscilador_sin_fuerza 0 = Some s /\
    IntegradorRK4.nuevo oscilador_con_fuerza 0 = Some s' /\
    IntegradorRK4.e_x1 s = IntegradorRK4.e_x1 s' /\
    PrimFloat.eqb (IntegradorRK4.e_y1 s) (IntegradorRK4.e_y1 s') = false.
Proof.
  destruct (IntegradorRK4.nuevo oscilador_sin_fuerza 0) as [s|] eqn:Hs;
    [|vm_compute in Hs; discriminate Hs].
  destruct (IntegradorRK4.nuevo oscilador_con_fuerza 0) as [s'|] eqn:Hs';
    [|vm_compute in Hs'; discriminate Hs'].
  exists s, s'. split; [reflexivity|]. split; [reflexivity|]. split.
  - apply (proj1 (@nuevo_positions_ignore_forces float _ _
                    oscilador_sin_fuerza oscilador_con_fuerza 0 s s'
                    eq_refl eq_refl Hs Hs')); reflexivity.
  - vm_compute in Hs, Hs'. injection Hs as <-. injection Hs' as <-.
    vm_compute. reflexivity.
Defined.

(** A sphere with itself, and a sphere at an infinite abscissa with
    itself. *)
Lemma colision_same_centre_binary64_witness :
  Esfera.colision bola_a bola_a = (bola_a, bola_a) /\
  Esfera.colision (Esfera.con_pos infinity 0 bola_a)
                  (Esfera.con_pos infinity 0 bola_a)
  = (Esfera.con_pos infinity 0 bola_a, Esfera.con_pos infinity 0 bola_a).
Proof.
  split; apply colision_same_centre_binary64; reflexivity.
Defined.

(** Two spheres far from each other, both within reach of a wall of
    the box of extents 0..10: the first bounces in [x], the second in
    [y]. *)
Lemma sin_contactos_izquierda_lejana : sin_contactos [bola_izquierda; bola_lejana].
Proof.
  intros i j a b Hij Ha Hb.
  destruct j as [|[|j]]; [lia | | destruct j; discriminate Hb].
  destruct i as [|i]; [|lia].
  injection Ha as <-. injection Hb as <-. reflexivity.
Qed.

Lemma paso_without_contact_keeps_speeds_witness :
  (toca_x bola_izquierda caja_0_10, toca_y bola_lejana caja_0_10) = (true, true) /\
  map masa_y_rapidez
      (snd (Simulacion.paso dt_main (caja_0_10, [bola_izquierda; bola_lejana])))
  = map masa_y_rapidez [bola_izquierda; bola_lejana] /\
  map (@energia float _)
      (snd (Simulacion.paso dt_main (caja_0_10, [bola_izquierda; bola_lejana])))
  = map (@energia float _) [bola_izquierda; bola_lejana].
Proof.
  split; [reflexivity|].
  apply (@paso_without_contact_keeps_speeds dt_main caja_0_10
           [bola_izquierda; bola_lejana] sin_contactos_izquierda_lejana).
Defined.

End InstanciasBinary64.

(** ** The initial grid of [main] *)

Section Malla.
Context {D : Type} `{Arit D} `{Libm D}.
Local Open Scope dbl_scope.

(** What [main] takes from outside the arithmetic: [std::sin], the
    literal 3.14159265358979323846, the result of the k-th call of
    [rand()] and [RAND_MAX]. *)
Variable seno : D -> D.
Variable pi_lit : D.
Variable rand : nat -> Z.
Variable RAND_MAX : Z.

(** [-half + (i + 0.5) * (largo / malla)]; the literal 0.5 is one half
    in both arithmetics. *)
Definition centro (largo : D) (malla i : nat) : D :=
  - (largo / 2) + (dlit (Z.of_nat i) + 1 / 2) * (largo / dlit (Z.of_nat malla)).

(** The variables of the two loops: the index of the next sphere, the
    number of calls of [rand()] made, and the vector. *)
Record inicio_st : Type := mk_inicio {
  idx : nat;
  llamadas : nat;
  esferas : list (Esfera.obj D)
}.

(** The body of the inner loop at cell [(i, j)]. The guard [idx < n]
    keeps [esferas[idx]] inside the vector, whose size is [n]. *)
Definition colocar (largo vmax R : D) (malla i j : nat) (st : inicio_st)
  : inicio_st :=
  let x0 := centro largo malla i in
  let y0 := centro largo malla j in
  let ang := (2 * pi_lit * dlit (rand (llamadas st))) / dlit RAND_MAX in
  let v := (vmax * dlit (rand (S (llamadas st)))) / dlit RAND_MAX in
  let vx0 := v * dcos ang in
  let vy0 := v * seno ang in
  match nth_error (esferas st) (idx st) with
  | Some e =>
      {| idx := S (idx st);
         llamadas := S (S (llamadas st));
         esferas := Simulacion.poner (idx st)
                      (Esfera.inicio 1 x0 y0 vx0 vy0 R e) (esferas st) |}
  | None => st
  end.

(** [for (int j = 0; j < malla && idx < n; j++)], with [restantes]
    values of [j] to go. *)
Fixpoint bucle_j (largo vmax R : D) (malla i : nat)
  (restantes j : nat) (st : inicio_st) : inicio_st :=
  match restantes with
  | O => st
  | S restantes' =>
      if idx st <? length (esferas st)
      then bucle_j largo vmax R malla i restantes' (S j)
             (colocar largo vmax R malla i j st)
      else st
  end.

(** [for (int i = 0; i < malla && idx < n; i++)]. *)
Fixpoint bucle_i (largo vmax R : D) (malla : nat)
  (restantes i : nat) (st : inicio_st) : inicio_st :=
  match restantes with
  | O => st
  | S restantes' =>
      if idx st <? length (esferas st)
      then bucle_i largo vmax R malla restantes' (S i)
             (bucle_j largo vmax R malla i malla 0 st)
      else st
  end.

(** The spheres after the initialisation of [main], from the vector
    [esferas0] that [vector<Esfera> esferas(n)] builds; [malla] is the
    value [main] computes as [ceil(sqrt(n))]. *)
Definition esferas_iniciales (largo vmax R : D) (malla : nat)
  (esferas0 : list (Esfera.obj D)) : list (Esfera.obj D) :=
  esferas (bucle_i largo vmax R malla malla 0
             {| idx := 0; llamadas := 0; esferas := esferas0 |}).

(** Sphere [k] sits at the centre of cell [(k / malla, k mod malla)]
    with mass 1, the radius read, and a fresh heading. *)
Definition colocada (largo R : D) (malla k : nat) (e : Esfera.obj D) : Prop :=
  Esfera.x e = centro largo malla (k / malla) /\
  Esfera.y e = centro largo malla (k mod malla) /\
  Esfera.m e = 1 /\ Esfera.R e = R /\
  Esfera.theta e = Esfera.atan2 (Esfera.vy e) (Esfera.vx e).

Definition colocadas (largo R : D) (malla n : nat) (st : inicio_st) : Prop :=
  length (esferas st) = n /\ (idx st <= n)%nat /\
  forall k, (k < idx st)%nat ->
    exists e, nth_error (esferas st) k = Some e /\ colocada largo R malla k e.

Lemma colocar_colocadas (largo vmax R : D) (malla n i j : nat) (st : inicio_st) :
  colocadas largo R malla n st ->
  idx st = (i * malla + j)%nat -> (j < malla)%nat -> (idx st < n)%nat ->
  colocadas largo R malla n (colocar largo vmax R malla i j st) /\
  idx (colocar largo vmax R malla i j st) = (i * malla + S j)%nat.
Proof.
  intros (Hlen & Hle & Hpl) Hidx Hj Hn. unfold colocar.
  destruct (nth_error (esferas st) (idx st)) as [e|] eqn:He.
  - split; [|simpl; lia]. split; [|split]; simpl.
    + now rewrite poner_length.
    + lia.
    + intros k Hk. destruct (Nat.eq_dec k (idx st)) as [->|Hne].
      * eexists. split; [apply nth_error_poner_mismo; lia|].
        assert (Hdiv : (idx st / malla)%nat = i).
        { symmetry. apply (Nat.div_unique _ _ _ j); lia. }
        assert (Hmod : (idx st mod malla)%nat = j).
        { symmetry. apply (Nat.mod_unique _ _ i); lia. }
        unfold colocada. rewrite Hdiv, Hmod. simpl. repeat split.
      * rewrite nth_error_poner_otro by auto. apply Hpl. lia.
  - apply nth_error_None in He. lia.
Qed.

Lemma bucle_j_colocadas (largo vmax R : D) (malla n i : nat) :
  forall restantes j st,
    (restantes + j)%nat = malla ->
    colocadas largo R malla n st ->
    idx st = (i * malla + j)%nat \/ idx st = n ->
    let st' := bucle_j largo vmax R malla i restantes j st in
    colocadas largo R malla n st' /\
    (idx st' = (S i * malla)%nat \/ idx st' = n).
Proof.
  induction restantes as [|r IH]; intros j st Hr Hc Hpos; simpl.
  - split; [assumption|]. destruct Hpos as [Hp|Hp]; [left; simpl; lia | now right].
  - destruct Hc as (Hlen & Hle & Hpl). rewrite Hlen.
    destruct (Nat.ltb_spec (idx st) n) as [Hlt|Hge].
    + destruct Hpos as [Hp|Hp]; [|lia].
      destruct (@colocar_colocadas largo vmax R malla n i j st) as [Hc' Hi'];
        try assumption; try lia; [now repeat split|].
      apply IH; [lia | assumption | left; lia].
    + split; [now repeat split | right; lia].
Qed.

Lemma bucle_i_colocadas (largo vmax R : D) (malla n : nat) :
  forall restantes i st,
    (restantes + i)%nat = malla ->
    colocadas largo R malla n st ->
    idx st = (i * malla)%nat \/ idx st = n ->
    let st' := bucle_i largo vmax R malla restantes i st in
    colocadas largo R malla n st' /\
    (idx st' = (malla * malla)%nat \/ idx st' = n).
Proof.
  induction restantes as [|r IH]; intros i st Hr Hc Hpos; simpl.
  - split; [assumption|]. destruct Hpos as [Hp|Hp]; [left; nia | now right].
  - pose proof Hc as (Hlen & Hle & Hpl). rewrite Hlen.
    destruct (Nat.ltb_spec (idx st) n) as [Hlt|Hge].
    + destruct Hpos as [Hp|Hp]; [|lia].
      destruct (@bucle_j_colocadas largo vmax R malla n i malla 0 st)
        as [Hc' Hi']; [lia | assumption | left; lia |].
      apply IH; [lia | assumption | assumption].
    + split; [assumption | right; lia].
Qed.

(** Every sphere of the vector is placed when the grid has room for
    all of them. *)
Lemma esferas_iniciales_colocadas (largo vmax R : D) (malla : nat)
  (esferas0 : list (Esfera.obj D)) :
  (length esferas0 <= malla * malla)%nat ->
  let es := esferas_iniciales largo vmax R malla esferas0 in
  length es = length esferas0 /\
  forall k e, nth_error es k = Some e -> colocada largo R malla k e.
Proof.
  intro Hn. unfold esferas_iniciales.
  destruct (@bucle_i_colocadas largo vmax R malla (length esferas0) malla 0
              {| idx := 0; llamadas := 0; esferas := esferas0 |})
    as [(Hlen & Hle & Hpl) Hidx].
  - lia.
  - split; [reflexivity|]. split; [simpl; lia|]. simpl. intros k Hk. lia.
  - left. reflexivity.
  - cbv zeta. split; [assumption|]. intros k e Hk.
    assert (Hkn : (k < length esferas0)%nat).
    { rewrite <- Hlen. apply nth_error_Some. congruence. }
    destruct (Hpl k) as (e' & He' & Hc); [lia|]. congruence.
Qed.

(** In every arithmetic, when the grid has room for all the spheres
    the two loops of [main] initialise every one of them: sphere [k]
    is put at the centre of cell [(k / malla, k mod malla)], the row
    index giving [x] and the column index [y], with mass 1, the radius
    read and the heading of its velocity; the vector keeps its size. *)
Theorem main_grid_layout (largo vmax R : D) (malla : nat)
  (esferas0 : list (Esfera.obj D)) :
  (length esferas0 <= malla * malla)%nat ->
  let es := esferas_iniciales largo vmax R malla esferas0 in
  length es = length esferas0 /\
  forall k e, nth_error es k = Some e -> colocada largo R malla k e.
Proof. apply esferas_iniciales_colocadas. Qed.

End Malla.

(** ** The grid of three spheres in a box of side 4 *)

Section MallaInstancia.
Local Open Scope R_scope.

(** [vector<Esfera> esferas(3)]: three spheres not yet initialised. *)
Definition tres_esferas : list (Esfera.obj R) :=
  [esfera_escenario; esfera_izquierda; esfera_derecha].

Definition rand_creciente (k : nat) : Z := Z.of_nat (S k).

Lemma main_grid_layout_witness :
  let es := esferas_iniciales sin 3.14159265358979323846 rand_creciente
              2147483647 4 1 (1 / 2) 2 tres_esferas in
  length es = length tres_esferas /\
  forall k e, nth_error es k = Some e -> colocada 4 (1 / 2) 2 k e.
Proof.
  apply (@main_grid_layout R _ _ sin 3.14159265358979323846 rand_creciente
           2147483647 4 1 (1 / 2) 2 tres_esferas).
  simpl. lia.
Defined.

End MallaInstancia.
